(** * hansip: bundling a file group into an encrypted deliverable

    A shallow embedding of three pieces of the service:

    - [routes/files/bundle_filegroup.go]: the gin handler [BundleFileGroup]
      and the upload goroutine it starts;
    - [age_encryption]: the passphrase identity [LazyScryptIdentity];
    - [auth]: the gin handler [CheckToken].

    The handler talks to a relational store, the local disk, an object
    store and a handful of libraries.  All of them are gathered in a
    [World] (what is stored) and an [Env] (configuration, clock and the
    outcome of every call that can fail for reasons outside the program). *)

From stdpp Require Import gmap strings list fin_maps.
From Stdlib Require Import ZArith Lia Strings.Byte Strings.Ascii.

Open Scope string_scope.
Open Scope list_scope.

(** ** Go values shared by both packages *)

(** A Go [error].  [ErrIncorrectIdentity] is the package-level sentinel of
    [filippo.io/age]; [errorString] is what [errors.New] and [fmt.Errorf]
    without [%w] build; [wrapError] is [fmt.Errorf] with [%w].  A nil
    [error] is [None] of [option error]. *)
Inductive error : Type :=
| ErrIncorrectIdentity
| errorString (s : string)
| wrapError (msg : string) (err : error).

(** [err.Error()] *)
Definition Error (e : error) : string :=
  match e with
  | ErrIncorrectIdentity => "incorrect identity for recipient block"
  | errorString s => s
  | wrapError msg _ => msg
  end.

(** [errors.Is(err, age.ErrIncorrectIdentity)]: the sentinel is compared by
    identity along the chain of wrapped errors. *)
Fixpoint is_ErrIncorrectIdentity (e : error) : bool :=
  match e with
  | ErrIncorrectIdentity => true
  | errorString _ => false
  | wrapError _ inner => is_ErrIncorrectIdentity inner
  end.

Definition errors_Is_ErrIncorrectIdentity (err : option error) : bool :=
  match err with
  | None => false
  | Some e => is_ErrIncorrectIdentity e
  end.

(** ** Package age_encryption: [LazyScryptIdentity] *)

Module age_encryption.

(** [age.Stanza] *)
Record Stanza : Type := mkStanza {
  Type_ : string;
  Args : list string;
  Body : list byte
}.

(** The value a call of [Unwrap] returns: [(fileKey, err)]. *)
Definition Unwrapped : Type := option (list byte) * option error.

Section LazyScryptIdentity.

(** The field [Passphrase func() (string, error)]. *)
Variable Passphrase : unit -> string + error.

(** [age.NewScryptIdentity] and the method [Unwrap] of [age.ScryptIdentity],
    both of the age library. *)
Variable ScryptIdentity : Type.
Variable NewScryptIdentity : string -> ScryptIdentity + error.
Variable ScryptIdentity_Unwrap : ScryptIdentity -> list Stanza -> Unwrapped.

(** The first loop of [Unwrap]: [Some err] when it returns from inside
    the loop. *)
Fixpoint scan_stanzas (len : nat) (rest : list Stanza) : option error :=
  match rest with
  | [] => None
  | s :: rest' =>
      if bool_decide (Type_ s = "scrypt") && negb (len =? 1)%nat
      then Some (errorString "an scrypt recipient must be the only one")
      else scan_stanzas len rest'
  end.

(** [stanzas[0].Type != "scrypt"], evaluated only when [len(stanzas) = 1]. *)
Definition first_is_scrypt (stanzas : list Stanza) : bool :=
  match stanzas with
  | s :: _ => bool_decide (Type_ s = "scrypt")
  | [] => false
  end.

(** The method [Unwrap] of [LazyScryptIdentity].  The second component counts the
    calls of [i.Passphrase]. *)
Definition Unwrap (stanzas : list Stanza) : Unwrapped * nat :=
  match scan_stanzas (length stanzas) stanzas with
  | Some err => ((None, Some err), 0%nat)
  | None =>
      if negb (length stanzas =? 1)%nat || negb (first_is_scrypt stanzas)
      then ((None, Some ErrIncorrectIdentity), 0%nat)
      else
        match Passphrase tt with
        | inr err =>
            ((None, Some (errorString
                            ("could not read passphrase: " +:+ Error err))),
             1%nat)
        | inl pass =>
            match NewScryptIdentity pass with
            | inr err => ((None, Some err), 1%nat)
            | inl ii =>
                let '(fileKey, err) := ScryptIdentity_Unwrap ii stanzas in
                if errors_Is_ErrIncorrectIdentity err
                then ((None, Some (errorString "incorrect passphrase")), 1%nat)
                else ((fileKey, err), 1%nat)
            end
        end
  end.

Definition has_scrypt (stanzas : list Stanza) : Prop :=
  ∃ s, s ∈ stanzas ∧ Type_ s = "scrypt".

Definition sole_scrypt (stanzas : list Stanza) : Prop :=
  ∃ s, stanzas = [s] ∧ Type_ s = "scrypt".

End LazyScryptIdentity.

End age_encryption.


(** ** Package files: the handler [BundleFileGroup] *)

Module files.

(** A [time.Time], as seconds since the epoch. *)
Definition Instant : Type := Z.

(** A [uuid.UUID] is kept in its canonical text form, the only form the
    handler uses ([.String()] at every use). *)
Definition UUID : Type := string.

Definition uuid_Nil : UUID := "00000000-0000-0000-0000-000000000000".

(** *** The rows of package models, with the fields the handler touches *)

Module FileGroup.
Record t : Type := mk {
  ID : UUID;
  UserId : UUID;
  BundledAt : option Instant;
  ExpiredAt : option Instant;
  ArchivePasscode : string;
  FileKey : string;
  SharedToUserIds : list string
}.
Definition set_FileKey (k : string) (g : t) : t :=
  mk (ID g) (UserId g) (BundledAt g) (ExpiredAt g) (ArchivePasscode g) k
     (SharedToUserIds g).
Definition set_SharedToUserIds (u : list string) (g : t) : t :=
  mk (ID g) (UserId g) (BundledAt g) (ExpiredAt g) (ArchivePasscode g)
     (FileKey g) u.
(** The three assignments before [db.Save]. *)
Definition set_bundled (passcode : string) (now expDate : Instant) (g : t) : t :=
  mk (ID g) (UserId g) (Some now) (Some expDate) passcode (FileKey g)
     (SharedToUserIds g).
End FileGroup.

Module FileItem.
Record t : Type := mk {
  FileGroupId : UUID;
  Filename : string;   (* name on local storage *)
  Realname : string    (* display name, used inside the archive *)
}.
End FileItem.

Module UserKey.
Record t : Type := mk {
  UserId : UUID;
  Public : string
}.
End UserKey.

(** Modelled from the spec: package utils/shortlink is not in the source.
    Section 3 describes the access credential as an opaque code bound to one
    file group with an optional pin hash. *)
Module ShortLink.
Record t : Type := mk {
  Code : string;
  FileGroupId : UUID;
  PIN : string
}.
End ShortLink.

(** *** What is stored *)

(** One entry of the archive [zip.Writer] builds: the name in its header,
    the password it is AES-256 encrypted under, and the bytes that reached
    it. *)
Record ZipEntry : Type := mkZipEntry {
  Name : string;
  Password : string;
  Data : list byte
}.

(** A file on local storage or an object body: raw bytes as uploaded, the
    archive written by the handler, or the envelope written by
    [age_encryption.EncryptFile]. *)
Inductive FileData : Type :=
| Plain (bytes : list byte)
| ZipArchive (entries : list ZipEntry)
| AgeEnvelope (recipients : list string) (payload : FileData).

Record S3Object : Type := mkS3Object {
  ObjBody : FileData;
  Expires : option Instant
}.

Record World : Type := mkWorld {
  file_groups : list FileGroup.t;     (* table of models.FileGroup, key ID *)
  file_items : list FileItem.t;       (* table of models.FileItem *)
  user_keys : list UserKey.t;         (* table of models.UserKey *)
  short_links : list ShortLink.t;     (* table behind shortlink.MakeNewCode *)
  disk : gmap string FileData;        (* local storage, by path *)
  bucket : gmap string S3Object       (* the S3 bucket, by key *)
}.

Definition set_file_groups (t : list FileGroup.t) (w : World) : World :=
  mkWorld t (file_items w) (user_keys w) (short_links w) (disk w) (bucket w).
Definition set_short_links (t : list ShortLink.t) (w : World) : World :=
  mkWorld (file_groups w) (file_items w) (user_keys w) t (disk w) (bucket w).
Definition set_disk (d : gmap string FileData) (w : World) : World :=
  mkWorld (file_groups w) (file_items w) (user_keys w) (short_links w) d
          (bucket w).
Definition set_bucket (b : gmap string S3Object) (w : World) : World :=
  mkWorld (file_groups w) (file_items w) (user_keys w) (short_links w)
          (disk w) b.

(** The relational part of the world. *)
Definition database (w : World) :
  list FileGroup.t * list FileItem.t * list UserKey.t * list ShortLink.t :=
  (file_groups w, file_items w, user_keys w, short_links w).

(** *** What the program cannot decide *)

(** The result of a [db.Save]: [res.Error] or [res.RowsAffected]. *)
Inductive SaveResult : Type :=
| SaveError (err : error)
| RowsAffected (n : Z).

Record Env : Type := mkEnv {
  (* viper *)
  dirpaths_bundle : string;
  dirpaths_upload : string;
  (* the validator behind ShouldBindJSON: the datetime layout check *)
  validator_datetime : string → bool;
  (* bcrypt.GenerateFromPassword at bcrypt.DefaultCost *)
  bcrypt_GenerateFromPassword : string → string + error;
  (* time.Now and time.Parse(time.RFC3339, _) *)
  time_Now : Instant;
  time_Parse : string → Instant + error;
  (* failures of the local storage and of the zip writer *)
  os_Create_err : string → option error;
  os_Open_err : string → option error;
  zip_Encrypt_err : string → option error;
  (* io.Copy: [Some (n, err)] when it fails after n bytes *)
  io_Copy_err : string → option (nat * error);
  (* what a structured file reads as, byte by byte *)
  encoding : FileData → list byte;
  (* age_encryption.EncryptFile: the path it writes, or its error *)
  EncryptFile_result : string → string → list string → string + error;
  (* the store's answer to a Save *)
  db_Save_result : FileGroup.t → SaveResult;
  (* s3Client.PutObject *)
  PutObject_err : string → option error;
  (* shortlink: the code it draws, or its error; the public base URL *)
  shortlink_draw : list ShortLink.t → string + error;
  shortlink_base : string
}.

(** *** Effects left behind, in the order they happened *)

Inductive Event : Type :=
| OsCreate (path : string)
| OsRemove (path : string)
| EncryptFileCall (src dir : string) (keys : list string) (out : option string)
| DbSave (g : FileGroup.t) (saved : bool)
| PutObject (key : string) (ok : bool)
| Go (filePath : string) (g : FileGroup.t)
| MakeNewCodeCall (id : UUID) (pin : string) (code : option string).

Record St : Type := mkSt {
  world : World;
  log : list Event
}.

Definition emit (e : Event) (s : St) : St := mkSt (world s) (log s ++ [e]).
Definition on_world (f : World → World) (s : St) : St :=
  mkSt (f (world s)) (log s).

(** Every event of [l] that satisfies [q] comes after one that satisfies
    [p]. *)
Definition comes_after (p q : Event → bool) (l : list Event) : Prop :=
  ∀ l1 e l2, l = l1 ++ e :: l2 → q e = true → ∃ e', e' ∈ l1 ∧ p e' = true.

(** *** What the handler answers *)

Inductive Response : Type :=
| AbortWithStatusJSON (status : nat) (message : string)
| JSON_Created (expiredAt : option Instant) (downloadUrl : string)
| Panic_nil_dereference.

(** A handler step either goes on with a value or has answered and
    returned. *)
Inductive Flow (A : Type) : Type :=
| Continue (a : A)
| Return (r : Response).
Arguments Continue {A} a.
Arguments Return {A} r.

Definition Handler (A : Type) : Type := St → Flow A * St.

Definition ret {A} (a : A) : Handler A := λ s, (Continue a, s).

Definition bind {A B} (m : Handler A) (k : A → Handler B) : Handler B :=
  λ s, match m s with
       | (Continue a, s') => k a s'
       | (Return r, s') => (Return r, s')
       end.

Definition abort {A} (status : nat) (message : string) : Handler A :=
  λ s, (Return (AbortWithStatusJSON status message), s).

Definition panic {A} : Handler A := λ s, (Return Panic_nil_dereference, s).

Definition effect (f : St → St) : Handler unit := λ s, (Continue tt, f s).

Definition read {A} (f : World → A) : Handler A := λ s, (Continue (f (world s)), s).

Declare Scope handler_scope.
Delimit Scope handler_scope with handler.
Notation "'do' x <- m ; k" := (bind m (λ x, k))
  (at level 10, x name, m at level 100, k at level 200) : handler_scope.
Notation "'do' ' p <- m ; k" := (bind m (λ x, match x with p => k end))
  (at level 10, p pattern, m at level 100, k at level 200) : handler_scope.
Notation "'run' m ; k" := (bind m (λ _, k))
  (at level 10, m at level 100, k at level 200) : handler_scope.
Open Scope handler_scope.

(** The answer and the state a served request leaves. *)
Definition serve (h : Handler Response) (s : St) : Response * St :=
  match h s with
  | (Continue r, s') => (r, s')
  | (Return r, s') => (r, s')
  end.

(** *** Library calls *)

(** [filepath.Join] of a directory and a file name.  Cleaning of the result
    ([filepath.Clean]) is not modelled: the directories come from the
    configuration and the names from the store. *)
Definition filepath_Join (dir name : string) : string :=
  dir +:+ "/" +:+ name.

Definition is_separator (a : ascii) : bool := bool_decide (a = "/"%char).

Fixpoint drop_while {A} (p : A → bool) (l : list A) : list A :=
  match l with
  | [] => []
  | x :: l' => if p x then drop_while p l' else l
  end.

Fixpoint take_while {A} (p : A → bool) (l : list A) : list A :=
  match l with
  | [] => []
  | x :: l' => if p x then x :: take_while p l' else []
  end.

(** [filepath.Base] on a system whose separator is [/]: strip the trailing
    separators, keep what follows the last separator. *)
Definition filepath_Base (path : string) : string :=
  match path with
  | "" => "."
  | _ =>
      let stripped := drop_while is_separator (rev (String.list_ascii_of_string path)) in
      match take_while (λ a, negb (is_separator a)) stripped with
      | [] => match stripped with [] => "/" | _ => "" end
      | last => String.string_of_list_ascii (rev last)
      end
  end.

(** The bytes a reader gets from a file. *)
Definition read_bytes (env : Env) (d : FileData) : list byte :=
  match d with
  | Plain bytes => bytes
  | _ => encoding env d
  end.

(** [os.Open] *)
Definition os_Open (env : Env) (path : string) (w : World) : FileData + error :=
  match disk w !! path with
  | None => inr (errorString ("open " +:+ path +:+ ": no such file or directory"))
  | Some d =>
      match os_Open_err env path with
      | Some err => inr err
      | None => inl d
      end
  end.

(** [os.Create]: an empty file at [path], whatever was there. *)
Definition os_Create (env : Env) (path : string) : Handler (option error) :=
  λ s, match os_Create_err env path with
       | Some err => (Continue (Some err), s)
       | None =>
           (Continue None,
            emit (OsCreate path)
              (on_world (λ w, set_disk (<[path := Plain []]> (disk w)) w) s))
       end.

(** [os.Remove]; the handler never looks at its result. *)
Definition os_Remove (path : string) : Handler unit :=
  effect (λ s, emit (OsRemove path)
                 (on_world (λ w, set_disk (delete path (disk w)) w) s)).

(** [zipCompressor.Flush(); zipCompressor.Close()]: the entries are in the
    file the writer was opened on, if that file is still there. *)
Definition zip_Close (path : string) (zipCompressor : list ZipEntry) : Handler unit :=
  effect (on_world (λ w,
    set_disk (alter (λ _, ZipArchive zipCompressor) path (disk w)) w)).

(** Modelled from the spec: [age_encryption.EncryptFile] is not in the
    source.  Section 4.3: [WrapForRecipients(artifactPath, destDir,
    recipientPublicKeys) -> newArtifactPath] writes an envelope of the
    artifact that any one of the recipients' keys unwraps. *)
Definition EncryptFile (env : Env) (filePath outDir : string)
    (pubKeys : list string) : Handler (string + error) :=
  λ s, match disk (world s) !! filePath with
       | None =>
           (Continue (inr (errorString ("open " +:+ filePath))),
            emit (EncryptFileCall filePath outDir pubKeys None) s)
       | Some d =>
           match EncryptFile_result env filePath outDir pubKeys with
           | inr err =>
               (Continue (inr err),
                emit (EncryptFileCall filePath outDir pubKeys None) s)
           | inl out =>
               (Continue (inl out),
                emit (EncryptFileCall filePath outDir pubKeys (Some out))
                  (on_world (λ w,
                     set_disk (<[out := AgeEnvelope pubKeys d]> (disk w)) w) s))
           end
       end.

(** *** The store *)

(** [db.Where(`id = ? AND "userId" = ? AND "bundledAt" IS NULL`, id,
    userId).First(&fileGroup)] *)
Definition eligible (id userId : UUID) (g : FileGroup.t) : bool :=
  bool_decide (FileGroup.ID g = id)
  && bool_decide (FileGroup.UserId g = userId)
  && bool_decide (FileGroup.BundledAt g = None).

Definition db_First_FileGroup (id userId : UUID) (w : World) : option FileGroup.t :=
  find (eligible id userId) (file_groups w).

(** [db.Where(`"fileGroupId" = ?`, id).Find(&fileItems)] *)
Definition db_Find_FileItems (id : UUID) (w : World) : list FileItem.t :=
  List.filter (λ item, bool_decide (FileItem.FileGroupId item = id)) (file_items w).

(** [db.Where(`"userId" IN ?`, userShares).Find(&userKeys)] *)
Definition db_Find_UserKeys (userShares : list string) (w : World) : list UserKey.t :=
  List.filter (λ key, bool_decide (UserKey.UserId key ∈ userShares)) (user_keys w).

(** The row with the primary key of [g] becomes [g]; a new row when there is
    none. *)
Definition upsert (g : FileGroup.t) (rows : list FileGroup.t) : list FileGroup.t :=
  if existsb (λ r, bool_decide (FileGroup.ID r = FileGroup.ID g)) rows
  then map (λ r, if bool_decide (FileGroup.ID r = FileGroup.ID g) then g else r) rows
  else rows ++ [g].

(** [res.Error != nil || res.RowsAffected <= 0] *)
Definition save_failed (res : SaveResult) : bool :=
  match res with
  | SaveError _ => true
  | RowsAffected n => (n <=? 0)%Z
  end.

(** [db.Save(&fileGroup)]: the store applies it unless it reports an error
    or no row. *)
Definition db_Save (env : Env) (g : FileGroup.t) : Handler SaveResult :=
  λ s, let res := db_Save_result env g in
       if save_failed res
       then (Continue res, emit (DbSave g false) s)
       else (Continue res,
             emit (DbSave g true)
               (on_world (λ w, set_file_groups (upsert g (file_groups w)) w) s)).

(** Modelled from the spec: [shortlink.MakeNewCode] and [shortlink.MakeURL]
    are not in the source.  Section 4.5: [MintCode(groupId,
    optionalPinHash) -> code] creates a code bound to the group, optionally
    gated by a pin; [MakeURL(code) -> absoluteURL] renders it. *)
Definition MakeNewCode (env : Env) (id : UUID) (pin : string) : Handler (string + error) :=
  λ s, match shortlink_draw env (short_links (world s)) with
       | inr err => (Continue (inr err), emit (MakeNewCodeCall id pin None) s)
       | inl code =>
           (Continue (inl code),
            emit (MakeNewCodeCall id pin (Some code))
              (on_world (λ w,
                 set_short_links (short_links w ++ [ShortLink.mk code id pin]) w) s))
       end.

Definition MakeURL (env : Env) (code : string) : string :=
  shortlink_base env +:+ code.

(** *** The request *)

Module BundleFileGroupParam.
Record t : Type := mk {
  FileGroupId : UUID;
  ExpiredAt : string;
  Passcode : string;
  DownloadPassword : string;
  UserIds : list string
}.
End BundleFileGroupParam.

(** What the handler reads from its [gin.Context]: the result of
    [middleware.GetUserId] and the decoded JSON body, if it decodes. *)
Record Context : Type := mkContext {
  middleware_GetUserId : UUID + error;
  request_body : option BundleFileGroupParam.t
}.

(** The [binding] tags of [BundleFileGroupParam]. *)
Definition binding_ok (env : Env) (p : BundleFileGroupParam.t) : bool :=
  let pass := String.length (BundleFileGroupParam.Passcode p) in
  let down := String.length (BundleFileGroupParam.DownloadPassword p) in
  negb (bool_decide (BundleFileGroupParam.FileGroupId p = uuid_Nil))
  && negb (bool_decide (BundleFileGroupParam.ExpiredAt p = ""))
  && validator_datetime env (BundleFileGroupParam.ExpiredAt p)
  && (6 <=? pass)%nat && (pass <=? 100)%nat
  && ((down =? 0)%nat || ((6 <=? down)%nat && (down <=? 100)%nat)).

(** [c.ShouldBindJSON(&bodyParams)] *)
Definition ShouldBindJSON (env : Env) (c : Context) : option BundleFileGroupParam.t :=
  match request_body c with
  | Some p => if binding_ok env p then Some p else None
  | None => None
  end.

(** *** The handler, in the order of the source *)

(** Lines 37-62: the requester, the body, the passcode hash. *)
Definition prologue (env : Env) (c : Context) :
    Handler (UUID * BundleFileGroupParam.t * string) :=
  match middleware_GetUserId c with
  | inr _ => abort 403 "Unauthorized request"
  | inl userId =>
      match ShouldBindJSON env c with
      | None => abort 400 "Invalid body request"
      | Some bodyParams =>
          match bcrypt_GenerateFromPassword env
                  (BundleFileGroupParam.Passcode bodyParams) with
          | inr _ => abort 400 "Unable to process password"
          | inl passcode => ret (userId, bodyParams, passcode)
          end
      end
  end.

(** Lines 66-78: the group, if it is the requester's and not bundled. *)
Definition fetchGroup (userId : UUID) (bodyParams : BundleFileGroupParam.t) :
    Handler FileGroup.t :=
  do res <- read (db_First_FileGroup
                    (BundleFileGroupParam.FileGroupId bodyParams) userId);
  match res with
  | None => abort 500 "Invalid file group"
  | Some fileGroup => ret fileGroup
  end.

(** Lines 112-115: one round of the loop over the keys found. *)
Definition add_recipient (acc : list string * FileGroup.t) (key : UserKey.t) :
    list string * FileGroup.t :=
  let '(userPubKeys, fileGroup) := acc in
  (userPubKeys ++ [UserKey.Public key],
   FileGroup.set_SharedToUserIds
     (FileGroup.SharedToUserIds fileGroup ++ [UserKey.UserId key]) fileGroup).

(** Lines 102-118: [userPubKeys] and the group with its recipients. *)
Definition resolve_recipients (userId : UUID) (bodyParams : BundleFileGroupParam.t)
    (fileGroup : FileGroup.t) (w : World) : list string * FileGroup.t :=
  if (0 <? length (BundleFileGroupParam.UserIds bodyParams))%nat then
    let userShares := BundleFileGroupParam.UserIds bodyParams ++ [userId] in
    let userKeys := db_Find_UserKeys userShares w in
    if (0 <? length userKeys)%nat
    then foldl add_recipient ([], fileGroup) userKeys
    else ([], fileGroup)
  else ([], fileGroup).

(** Lines 123-148: one round of the loop over the members. *)
Definition archive_item (env : Env) (uploadPath passcode : string)
    (item : FileItem.t) (zipCompressor : list ZipEntry) : Handler (list ZipEntry) :=
  let filePath := filepath_Join uploadPath (FileItem.Filename item) in
  do f <- read (os_Open env filePath);
  match f with
  | inr _ => ret zipCompressor
  | inl f =>
      match zip_Encrypt_err env (FileItem.Realname item) with
      | Some _ => ret zipCompressor
      | None =>
          let entry := mkZipEntry (FileItem.Realname item) passcode in
          match io_Copy_err env filePath with
          | Some (n, _) =>
              ret (zipCompressor ++ [entry (take n (read_bytes env f))])
          | None =>
              run os_Remove filePath;
              ret (zipCompressor ++ [entry (read_bytes env f)])
          end
      end
  end.

(** Lines 122-149 *)
Fixpoint archive_items (env : Env) (uploadPath passcode : string)
    (fileItems : list FileItem.t) (zipCompressor : list ZipEntry) :
    Handler (list ZipEntry) :=
  match fileItems with
  | [] => ret zipCompressor
  | item :: rest =>
      do zipCompressor <- archive_item env uploadPath passcode item zipCompressor;
      archive_items env uploadPath passcode rest zipCompressor
  end.

(** Lines 157-169: the second layer, when there are keys to wrap for. *)
Definition wrap_for_recipients (env : Env) (bundledFullPath bundledPath : string)
    (userPubKeys : list string) (fileGroup : FileGroup.t) : Handler FileGroup.t :=
  if (0 <? length userPubKeys)%nat then
    do r <- EncryptFile env bundledFullPath bundledPath userPubKeys;
    match r with
    | inr err => abort 500 ("Unable to encrypt the file:" +:+ Error err)
    | inl filePathEnc =>
        run os_Remove bundledFullPath;
        ret (FileGroup.set_FileKey filePathEnc fileGroup)
    end
  else ret fileGroup.

(** Lines 171-174: the expiry and the [err] the parse leaves behind. *)
Definition parse_expiry (env : Env) (bodyParams : BundleFileGroupParam.t) :
    Instant * option error :=
  match time_Parse env (BundleFileGroupParam.ExpiredAt bodyParams) with
  | inl expDate => (expDate, None)
  | inr err => ((time_Now env + 30 * 24 * 3600)%Z, Some err)
  end.

(** Lines 181-188.  The message is built from [err], which at this point
    still holds what [time.Parse] returned. *)
Definition persist (env : Env) (err : option error) (fileGroup : FileGroup.t) :
    Handler unit :=
  do res <- db_Save env fileGroup;
  if save_failed res then
    match err with
    | Some err => abort 500 ("Unable to bundle files:" +:+ Error err)
    | None => panic
    end
  else ret tt.

(** Lines 218-231 *)
Definition pin_code (env : Env) (bodyParams : BundleFileGroupParam.t) : Handler string :=
  if (0 <? String.length (BundleFileGroupParam.DownloadPassword bodyParams))%nat then
    match bcrypt_GenerateFromPassword env
            (BundleFileGroupParam.DownloadPassword bodyParams) with
    | inr err => abort 500 ("Unable to bundle files:" +:+ Error err)
    | inl pinEnc => ret pinEnc
    end
  else ret "".

(** Lines 151-249: from the closing of the archive to the answer. *)
Definition finish (env : Env) (bodyParams : BundleFileGroupParam.t)
    (passcode bundledPath bundledFullPath : string) (userPubKeys : list string)
    (fileGroup : FileGroup.t) (zipCompressor : list ZipEntry) : Handler Response :=
  run zip_Close bundledFullPath zipCompressor;
  let fileGroup := FileGroup.set_FileKey bundledFullPath fileGroup in
  do fileGroup <-
    wrap_for_recipients env bundledFullPath bundledPath userPubKeys fileGroup;
  let '(expDate, err) := parse_expiry env bodyParams in
  let now := time_Now env in
  let fileGroup := FileGroup.set_bundled passcode now expDate fileGroup in
  run persist env err fileGroup;
  run effect (emit (Go (FileGroup.FileKey fileGroup) fileGroup));
  do pinCode <- pin_code env bodyParams;
  do r <- MakeNewCode env (FileGroup.ID fileGroup) pinCode;
  match r with
  | inr err => abort 500 ("Unable to create download link:" +:+ Error err)
  | inl shortLink =>
      ret (JSON_Created (FileGroup.ExpiredAt fileGroup) (MakeURL env shortLink))
  end.

(** [bundledFullPath] of lines 90-92. *)
Definition bundle_path (env : Env) (fileGroup : FileGroup.t) : string :=
  filepath_Join (dirpaths_bundle env) (FileGroup.ID fileGroup +:+ ".zip").

(** Lines 80-249: everything after the group has been fetched. *)
Definition bundleFetched (env : Env) (userId : UUID)
    (bodyParams : BundleFileGroupParam.t) (passcode : string)
    (fileGroup : FileGroup.t) : Handler Response :=
  do fileItems <- read (db_Find_FileItems (FileGroup.ID fileGroup));
  if (length fileItems =? 0)%nat then abort 500 "Empty file group" else
  let bundledPath := dirpaths_bundle env in
  let bundledFullPath := bundle_path env fileGroup in
  do err <- os_Create env bundledFullPath;
  match err with
  | Some err => abort 500 ("Unable to bundle files:" +:+ Error err)
  | None =>
      do '(userPubKeys, fileGroup) <-
        read (resolve_recipients userId bodyParams fileGroup);
      let uploadPath := dirpaths_upload env in
      do zipCompressor <-
        archive_items env uploadPath (BundleFileGroupParam.Passcode bodyParams)
          fileItems [];
      finish env bodyParams passcode bundledPath bundledFullPath userPubKeys
        fileGroup zipCompressor
  end.

(** [BundleFileGroup(repo, s3Client)], the function it returns. *)
Definition BundleFileGroup (env : Env) (c : Context) : Handler Response :=
  do '(userId, bodyParams, passcode) <- prologue env c;
  do fileGroup <- fetchGroup userId bodyParams;
  bundleFetched env userId bodyParams passcode fileGroup.

(** Lines 190-216: the goroutine started after the save, run on its own. *)
Definition upload_goroutine (env : Env) (filePath : string)
    (fileGroup : FileGroup.t) (s : St) : St :=
  let keyName := filepath_Base filePath in
  match os_Open env filePath (world s) with
  | inr _ => s
  | inl bundledFile =>
      match PutObject_err env keyName with
      | None =>
          let s :=
            emit (PutObject keyName true)
              (on_world (λ w,
                 set_bucket
                   (<[keyName := mkS3Object bundledFile
                                   (FileGroup.ExpiredAt fileGroup)]> (bucket w)) w) s) in
          let fileGroup := FileGroup.set_FileKey keyName fileGroup in
          let s := snd (db_Save env fileGroup s) in
          snd (os_Remove filePath s)
      | Some _ => emit (PutObject keyName false) s
      end
  end.

(** *** What became of a member in the archiving loop *)

(** [filePath] of line 123. *)
Definition member_path (uploadPath : string) (item : FileItem.t) : string :=
  filepath_Join uploadPath (FileItem.Filename item).

(** The four ways a round of the loop ends: the first two leave by the
    [continue] of lines 129 and 137, the third by the one of line 144, the
    last reaches [os.Remove]. *)
Inductive Fate : Type :=
| NotOpened
| NotPrepared
| CopyFailed (n : nat)
| Incorporated.

(** The fate of a member, read off the disk [d] and the environment. *)
Definition fate (env : Env) (uploadPath : string) (d : gmap string FileData)
    (item : FileItem.t) : Fate :=
  let filePath := member_path uploadPath item in
  match d !! filePath with
  | None => NotOpened
  | Some _ =>
      match os_Open_err env filePath with
      | Some _ => NotOpened
      | None =>
          match zip_Encrypt_err env (FileItem.Realname item) with
          | Some _ => NotPrepared
          | None =>
              match io_Copy_err env filePath with
              | Some (n, _) => CopyFailed n
              | None => Incorporated
              end
          end
      end
  end.

(** The bytes of a member's source on the disk [d]. *)
Definition source_bytes (env : Env) (uploadPath : string)
    (d : gmap string FileData) (item : FileItem.t) : list byte :=
  match d !! member_path uploadPath item with
  | Some f => read_bytes env f
  | None => []
  end.

(** The entry of a member whose bytes all reached the archive. *)
Definition full_entry (env : Env) (uploadPath passcode : string)
    (d : gmap string FileData) (item : FileItem.t) : ZipEntry :=
  mkZipEntry (FileItem.Realname item) passcode (source_bytes env uploadPath d item).

(** What a member leaves in the archive, by its fate. *)
Definition archived (env : Env) (uploadPath passcode : string)
    (d : gmap string FileData) (item : FileItem.t) : list ZipEntry :=
  match fate env uploadPath d item with
  | NotOpened | NotPrepared => []
  | CopyFailed n =>
      [mkZipEntry (FileItem.Realname item) passcode
         (take n (source_bytes env uploadPath d item))]
  | Incorporated => [full_entry env uploadPath passcode d item]
  end.

Definition is_incorporated (env : Env) (uploadPath : string)
    (d : gmap string FileData) (item : FileItem.t) : bool :=
  match fate env uploadPath d item with
  | Incorporated => true
  | _ => false
  end.

(** What a reader holding [passcode] gets out of an archive: the names and
    bytes of the entries encrypted under it. *)
Definition open_archive (passcode : string) (entries : list ZipEntry) :
    list (string * list byte) :=
  omap (λ e, if bool_decide (Password e = passcode)
             then Some (Name e, Data e) else None) entries.

(** A request served in the world [w], with an empty journal. *)
Definition handle (env : Env) (c : Context) (w : World) : Response * St :=
  serve (BundleFileGroup env c) (mkSt w []).

(** The archive in the writer when the loop is left. *)
Definition archive_of (r : Flow (list ZipEntry) * St) : list ZipEntry :=
  match r.1 with
  | Continue zipCompressor => zipCompressor
  | Return _ => []
  end.

(** The archive holds the members that were read in full, and nothing
    else. *)
Definition only_incorporated (env : Env) (uploadPath passcode : string)
    (d : gmap string FileData) (fileItems : list FileItem.t)
    (archive : list ZipEntry) : Prop :=
  archive = map (full_entry env uploadPath passcode d)
              (List.filter (is_incorporated env uploadPath d) fileItems).

(** Every row of the group [id] is marked bundled. *)
Definition bundled_in (id : UUID) (w : World) : Prop :=
  ∀ g, g ∈ file_groups w → FileGroup.ID g = id → FileGroup.BundledAt g ≠ None.

(** *** Requests served side by side *)

(** A request in flight.  The store is consulted twice, by the fetch of
    lines 66-78 and by the save of line 181; a request is observed between
    the two as [Fetched], holding the local variables of the handler. *)
Inductive Thread : Type :=
| Arrived (c : Context)
| Fetched (userId : UUID) (bodyParams : BundleFileGroupParam.t)
    (passcode : string) (fileGroup : FileGroup.t)
| Answered (r : Response).

(** A thread runs up to its next observation point. *)
Definition advance (env : Env) (t : Thread) (s : St) : Thread * St :=
  match t with
  | Arrived c =>
      match (do '(userId, bodyParams, passcode) <- prologue env c;
             do fileGroup <- fetchGroup userId bodyParams;
             ret (Fetched userId bodyParams passcode fileGroup)) s with
      | (Continue t', s') => (t', s')
      | (Return r, s') => (Answered r, s')
      end
  | Fetched userId bodyParams passcode fileGroup =>
      let '(r, s') := serve (bundleFetched env userId bodyParams passcode fileGroup) s in
      (Answered r, s')
  | Answered _ => (t, s)
  end.

(** [order] names, step by step, the thread that runs next. *)
Fixpoint schedule (env : Env) (order : list nat) (threads : list Thread) (s : St) :
    list Thread * St :=
  match order with
  | [] => (threads, s)
  | i :: order' =>
      match threads !! i with
      | None => schedule env order' threads s
      | Some t =>
          let '(t', s') := advance env t s in
          schedule env order' (<[i := t']> threads) s'
      end
  end.

Definition is_created (t : Thread) : bool :=
  match t with
  | Answered (JSON_Created _ _) => true
  | _ => false
  end.

Definition is_invalid_group (t : Thread) : bool :=
  match t with
  | Answered (AbortWithStatusJSON 500 "Invalid file group") => true
  | _ => false
  end.

(** Exactly one caller is answered with success and every other one with
    the invalid-group failure. *)
Definition serialized (threads : list Thread) : Prop :=
  ∃ i t, threads !! i = Some t ∧ is_created t = true ∧
    ∀ j t', j ≠ i → threads !! j = Some t' → is_invalid_group t' = true.

(** Kinds of events. *)
Definition is_applied_save (id : UUID) (e : Event) : bool :=
  match e with
  | DbSave g true => bool_decide (FileGroup.ID g = id)
  | _ => false
  end.

Definition is_mint (id : UUID) (e : Event) : bool :=
  match e with
  | MakeNewCodeCall id' _ _ => bool_decide (id' = id)
  | _ => false
  end.



(** The saves of a group that the store applied. *)
Definition applied_saves (id : UUID) (l : list Event) : list Event :=
  List.filter (is_applied_save id) l.

(** *** A small deployment, for examples *)

Module Example.

Definition deployment (copy : string → option (nat * error))
    (wrap : string → string + error) (save : SaveResult)
    (put : option error) : Env := {|
  dirpaths_bundle := "bundle";
  dirpaths_upload := "upload";
  validator_datetime := λ _, true;
  bcrypt_GenerateFromPassword := λ p, inl ("$2a$10$" +:+ p);
  time_Now := 1700000000%Z;
  time_Parse := λ s,
    if bool_decide (s = "2025-01-01T00:00:00Z") then inl 1735689600%Z
    else inr (errorString "parsing time: cannot parse");
  os_Create_err := λ _, None;
  os_Open_err := λ _, None;
  zip_Encrypt_err := λ _, None;
  io_Copy_err := copy;
  encoding := λ _, [];
  EncryptFile_result := λ src _ _, wrap src;
  db_Save_result := λ _, save;
  PutObject_err := λ _, put;
  shortlink_draw := λ links,
    inl ("code" +:+ String.string_of_list_ascii (repeat "i"%char (length links)));
  shortlink_base := "https://hansip.example/d/"
|}.

(** Nothing fails. *)
Definition env : Env :=
  deployment (λ _, None) (λ src, inl (src +:+ ".age")) (RowsAffected 1) None.

(** The wrap for the recipients fails. *)
Definition env_wrap_fails : Env :=
  deployment (λ _, None) (λ _, inr (errorString "age: no recipients"))
    (RowsAffected 1) None.

(** Copying the first member fails after two bytes. *)
Definition env_copy_fails : Env :=
  deployment
    (λ p, if bool_decide (p = "upload/f-0001")
          then Some (2%nat, errorString "read: input/output error") else None)
    (λ src, inl (src +:+ ".age")) (RowsAffected 1) None.

(** The store refuses the save. *)
Definition env_save_fails : Env :=
  deployment (λ _, None) (λ src, inl (src +:+ ".age"))
    (SaveError (errorString "connection refused")) None.


Definition G : FileGroup.t :=
  FileGroup.mk "g1" "owner" None None "" "" [].

Definition a_txt : FileItem.t := FileItem.mk "g1" "f-0001" "a.txt".
Definition b_txt : FileItem.t := FileItem.mk "g1" "f-0002" "b.txt".

Definition bytes_a : list byte := String.list_byte_of_string "alpha".
Definition bytes_b : list byte := String.list_byte_of_string "bravo".

Definition owner_key : UserKey.t := UserKey.mk "owner" "age1owner".

Definition w0 : World := {|
  file_groups := [G];
  file_items := [a_txt; b_txt];
  user_keys := [owner_key; UserKey.mk "u1" "age1u1"; UserKey.mk "u2" "age1u2"];
  short_links := [];
  disk := <["upload/f-0001" := Plain bytes_a]>
            (<["upload/f-0002" := Plain bytes_b]> ∅);
  bucket := ∅
|}.

Definition s0 : St := mkSt w0 [].

Definition params (downloadPassword : string) (userIds : list string) :
    BundleFileGroupParam.t :=
  BundleFileGroupParam.mk "g1" "2025-01-01T00:00:00Z" "secret1"
    downloadPassword userIds.

Definition request (downloadPassword : string) (userIds : list string) : Context :=
  mkContext (inl "owner") (Some (params downloadPassword userIds)).

(** The group as the handler saves it for [request _ []]. *)
Definition G_bundled : FileGroup.t :=
  FileGroup.mk "g1" "owner" (Some 1700000000%Z) (Some 1735689600%Z)
    "$2a$10$secret1" "bundle/g1.zip" [].

(** The world a served [request "" []] leaves. *)
Definition w1 : World := world (handle env (request "" []) w0).2.

End Example.

End files.

(** ** Package auth: the handler [CheckToken] *)

Module auth.

(** [strings.Split(s, sep)] for a separator of one byte: the pieces of [s]
    between the occurrences of [sep], in order; a string without separator
    is its own single piece, the empty string included. *)
Fixpoint strings_Split (s : string) (sep : ascii) : list string :=
  match s with
  | EmptyString => [""]
  | String a s' =>
      if bool_decide (a = sep) then "" :: strings_Split s' sep
      else
        match strings_Split s' sep with
        | piece :: pieces => String a piece :: pieces
        | [] => [String a ""]
        end
  end.

(** [strings.Contains(s, sep)], for a separator of one byte. *)
Fixpoint strings_Contains (s : string) (sep : ascii) : bool :=
  match s with
  | EmptyString => false
  | String a s' => bool_decide (a = sep) || strings_Contains s' sep
  end.

(** The row of [models.AccessToken], with the fields the handler
    touches. *)
Module AccessToken.
Record t : Type := mk {
  Token : string;
  TokenExpiredAt : files.Instant
}.
End AccessToken.

Record requestHeader : Type := mkRequestHeader {
  Authorization : string
}.

Inductive Response : Type :=
| AbortWithStatusJSON (status : nat) (message : string)
| JSON (status : nat).

(** What the handler is given: the result of [c.ShouldBindHeader(&h)],
    [None] when it fails; [time.Now()]; the rows of the table of access
    tokens in the order of their primary key; and the error of the query,
    if the store fails to answer it. *)
Record Request : Type := mkRequest {
  header : option requestHeader;
  now : files.Instant;
  rows : list AccessToken.t;
  query_err : option error
}.

(** [db.Where(&models.AccessToken{Token: bearer}).First(&acct)]: the row
    found, [None] when [res.RowsAffected] is 0.  A struct condition of gorm
    keeps the fields that are not zero: with an empty [bearer] no condition
    is left and the first row of the table is found. *)
Definition db_First_AccessToken (q : Request) (bearer : string) :
    option AccessToken.t :=
  match query_err q with
  | Some _ => None
  | None =>
      find (λ r, bool_decide (bearer = "")
                 || bool_decide (AccessToken.Token r = bearer)) (rows q)
  end.

(** [acct.TokenExpiredAt.Before(now)] *)
Definition Before (t now : files.Instant) : bool := (t <? now)%Z.

(** [CheckToken(pgRepo)], the function it returns. *)
Definition CheckToken (q : Request) : Response :=
  match header q with
  | None => AbortWithStatusJSON 401 "Unauthorized"
  | Some h =>
      let bearers := strings_Split (Authorization h) " "%char in
      if (length bearers <=? 1)%nat then AbortWithStatusJSON 401 "Unauthorized"
      else
        let bearer := nth 1 bearers "" in
        match db_First_AccessToken q bearer with
        | None => AbortWithStatusJSON 401 "Unauthorized"
        | Some acct =>
            if Before (AccessToken.TokenExpiredAt acct) (now q)
            then AbortWithStatusJSON 401 "Unauthorized"
            else JSON 200
        end
  end.

(** A request whose [Authorization] header is a scheme, a space and the
    rest, served by a store that answers. *)
Definition authorized_by (scheme rest : string) (now : files.Instant)
    (rows : list AccessToken.t) : Request :=
  mkRequest (Some (mkRequestHeader (scheme +:+ " " +:+ rest))) now rows None.

End auth.

(** ** The handler next to its goroutine *)

Module handoff.

Import files.

(** Lines 218-249: what the handler still does once the goroutine is
    started. *)
Definition respond (env : Env) (bodyParams : BundleFileGroupParam.t)
    (fileGroup : FileGroup.t) : Handler Response :=
  do pinCode <- pin_code env bodyParams;
  do r <- MakeNewCode env (FileGroup.ID fileGroup) pinCode;
  match r with
  | inr err => abort 500 ("Unable to create download link:" +:+ Error err)
  | inl shortLink =>
      ret (JSON_Created (FileGroup.ExpiredAt fileGroup) (MakeURL env shortLink))
  end.

End handoff.

(** ** Further deployments and worlds, for examples *)

Module Scenarios.

Import files.

(** [shortlink.MakeNewCode] fails; everything else is as in
    [Example.env]. *)
Definition env_mint_fails : Env := {|
  dirpaths_bundle := dirpaths_bundle Example.env;
  dirpaths_upload := dirpaths_upload Example.env;
  validator_datetime := validator_datetime Example.env;
  bcrypt_GenerateFromPassword := bcrypt_GenerateFromPassword Example.env;
  time_Now := time_Now Example.env;
  time_Parse := time_Parse Example.env;
  os_Create_err := os_Create_err Example.env;
  os_Open_err := os_Open_err Example.env;
  zip_Encrypt_err := zip_Encrypt_err Example.env;
  io_Copy_err := io_Copy_err Example.env;
  encoding := encoding Example.env;
  EncryptFile_result := EncryptFile_result Example.env;
  db_Save_result := db_Save_result Example.env;
  PutObject_err := PutObject_err Example.env;
  shortlink_draw := λ _, inr (errorString "duplicate key value");
  shortlink_base := shortlink_base Example.env
|}.

(** The group of [Example.w0] before any file was uploaded to it. *)
Definition w_empty_group : World := {|
  file_groups := [Example.G];
  file_items := [];
  user_keys := user_keys Example.w0;
  short_links := [];
  disk := ∅;
  bucket := ∅
|}.

(** [Example.w0] when nobody has registered a key. *)
Definition w_no_keys : World := {|
  file_groups := file_groups Example.w0;
  file_items := file_items Example.w0;
  user_keys := [];
  short_links := [];
  disk := disk Example.w0;
  bucket := ∅
|}.

(** [Example.w0] with the upload of another group next to it. *)
Definition w_neighbour : World := {|
  file_groups := Example.G :: [FileGroup.mk "g2" "other" None None "" "" []];
  file_items := file_items Example.w0 ++ [FileItem.mk "g2" "f-0777" "c.txt"];
  user_keys := user_keys Example.w0;
  short_links := [];
  disk := <["upload/f-0777" := Plain Example.bytes_b]> (disk Example.w0);
  bucket := ∅
|}.

(** Two access tokens, one expired at [token_now] and one still valid. *)
Definition token_rows : list auth.AccessToken.t :=
  [auth.AccessToken.mk "tok-old" 1600000000%Z;
   auth.AccessToken.mk "tok-new" 1800000000%Z].

Definition token_now : Instant := 1700000000%Z.

(** The group as the handler saves it for [Example.request _ ["u1"; "ghost"]]
    in [Example.w0]. *)
Definition G_shared : FileGroup.t :=
  FileGroup.mk "g1" "owner" (Some 1700000000%Z) (Some 1735689600%Z)
    "$2a$10$secret1" "bundle/g1.zip.age" ["owner"; "u1"].

End Scenarios.


(** * Properties *)

Import age_encryption files.

(** ** The passphrase identity *)

Section LazyScryptIdentityFacts.
Context (Passphrase : unit → string + error) (ScryptIdentity : Type)
  (NewScryptIdentity : string → ScryptIdentity + error)
  (ScryptIdentity_Unwrap : ScryptIdentity → list Stanza → Unwrapped).

Local Abbreviation Unwrap :=
  (Unwrap Passphrase ScryptIdentity NewScryptIdentity ScryptIdentity_Unwrap).

Lemma scan_stanzas_mixed len rest :
  len ≠ 1%nat → has_scrypt rest →
  scan_stanzas len rest =
    Some (errorString "an scrypt recipient must be the only one").
Proof.
  intros Hlen (s & Hin & Hs).
  induction rest as [|x rest IH]; [by apply elem_of_nil in Hin|].
  simpl. destruct (bool_decide (Type_ x = "scrypt")) eqn:Hx; simpl.
  - destruct (Nat.eqb_spec len 1); [lia|done].
  - apply elem_of_cons in Hin as [->|Hin]; [|by apply IH].
    apply bool_decide_eq_false in Hx. done.
Qed.

Lemma scan_stanzas_single s : scan_stanzas 1 [s] = None.
Proof. simpl. by rewrite andb_false_r. Qed.

Lemma scan_stanzas_none len rest :
  (∀ s, s ∈ rest → Type_ s ≠ "scrypt") → scan_stanzas len rest = None.
Proof.
  induction rest as [|x rest IH]; intros Hno; [done|].
  simpl. rewrite bool_decide_eq_false_2.
  - simpl. apply IH. intros s Hs. apply Hno. by right.
  - apply Hno. by left.
Qed.

Lemma Unwrap_prompts_le stanzas : (snd (Unwrap stanzas) ≤ 1)%nat.
Proof.
  unfold Unwrap.
  repeat (case_match; simpl; try lia).
Qed.

Lemma Unwrap_prompted_sole stanzas :
  snd (Unwrap stanzas) ≠ 0%nat → sole_scrypt stanzas.
Proof.
  unfold Unwrap. destruct (scan_stanzas _ _); [done|].
  destruct stanzas as [|s [|s' rest]]; simpl; try done.
  destruct (bool_decide (Type_ s = "scrypt")) eqn:Hs; simpl; [|done].
  intros _. exists s. split; [done|]. by apply bool_decide_eq_true in Hs.
Qed.

Lemma Unwrap_sole_prompts stanzas :
  sole_scrypt stanzas → snd (Unwrap stanzas) = 1%nat.
Proof.
  intros (s & -> & Hs). unfold Unwrap.
  rewrite scan_stanzas_single. simpl.
  rewrite bool_decide_eq_true_2 by done. simpl.
  repeat (case_match; simpl; try done).
Qed.


Lemma Unwrap_mixed stanzas :
  has_scrypt stanzas → length stanzas ≠ 1%nat →
  Unwrap stanzas =
    ((None, Some (errorString "an scrypt recipient must be the only one")), 0%nat).
Proof.
  intros Hs Hlen. unfold age_encryption.Unwrap.
  by rewrite scan_stanzas_mixed.
Qed.

Lemma Unwrap_no_scrypt stanzas :
  ¬ has_scrypt stanzas →
  Unwrap stanzas = ((None, Some ErrIncorrectIdentity), 0%nat).
Proof.
  intros Hno. unfold age_encryption.Unwrap.
  rewrite scan_stanzas_none by (intros s Hs Ht; apply Hno; by exists s).
  destruct stanzas as [|s [|s' rest]]; simpl; try done.
  rewrite bool_decide_eq_false_2; [done|].
  intros Ht. apply Hno. exists s. split; [by left|done].
Qed.

Lemma Unwrap_wrong_passphrase stanzas pass ii :
  sole_scrypt stanzas →
  Passphrase tt = inl pass →
  NewScryptIdentity pass = inl ii →
  errors_Is_ErrIncorrectIdentity (ScryptIdentity_Unwrap ii stanzas).2 = true →
  (Unwrap stanzas).1 = (None, Some (errorString "incorrect passphrase")).
Proof.
  intros (s & -> & Hs) Hp Hn Hw. unfold age_encryption.Unwrap.
  rewrite scan_stanzas_single. simpl.
  rewrite bool_decide_eq_true_2 by done. simpl. rewrite Hp, Hn.
  destruct (ScryptIdentity_Unwrap ii [s]) as [fileKey err]. simpl in Hw.
  by rewrite Hw.
Qed.

End LazyScryptIdentityFacts.

(** Claim C9.  [Unwrap] of the passphrase identity calls the passphrase
    callback only for a list made of exactly one scrypt stanza; a list with
    an scrypt stanza and any other stanza is rejected with "an scrypt
    recipient must be the only one"; a list without scrypt stanza gives
    [age.ErrIncorrectIdentity] without prompting; and a wrong passphrase
    gives the error "incorrect passphrase", which is not
    [ErrIncorrectIdentity]. *)
Theorem C9_passphrase_identity_unwrap
    (Passphrase : unit → string + error) (ScryptIdentity : Type)
    (NewScryptIdentity : string → ScryptIdentity + error)
    (ScryptIdentity_Unwrap : ScryptIdentity → list Stanza → Unwrapped)
    (stanzas : list Stanza) :
  ((Unwrap Passphrase ScryptIdentity NewScryptIdentity ScryptIdentity_Unwrap
      stanzas).2 ≠ 0%nat ↔ sole_scrypt stanzas)
  ∧ (has_scrypt stanzas → length stanzas ≠ 1%nat →
     Unwrap Passphrase ScryptIdentity NewScryptIdentity ScryptIdentity_Unwrap stanzas
     = ((None, Some (errorString "an scrypt recipient must be the only one")), 0%nat))
  ∧ (¬ has_scrypt stanzas →
     Unwrap Passphrase ScryptIdentity NewScryptIdentity ScryptIdentity_Unwrap stanzas
     = ((None, Some ErrIncorrectIdentity), 0%nat))
  ∧ (∀ pass ii,
       sole_scrypt stanzas →
       Passphrase tt = inl pass →
       NewScryptIdentity pass = inl ii →
       errors_Is_ErrIncorrectIdentity (ScryptIdentity_Unwrap ii stanzas).2 = true →
       (Unwrap Passphrase ScryptIdentity NewScryptIdentity ScryptIdentity_Unwrap
          stanzas).1
       = (None, Some (errorString "incorrect passphrase"))
       ∧ errorString "incorrect passphrase" ≠ ErrIncorrectIdentity
       ∧ errors_Is_ErrIncorrectIdentity
           (Some (errorString "incorrect passphrase")) = false).
Proof.
  split; [|split; [|split]].
  - split; [apply Unwrap_prompted_sole|].
    intros Hs. by rewrite Unwrap_sole_prompts.
  - apply Unwrap_mixed.
  - apply Unwrap_no_scrypt.
  - intros pass ii Hs Hp Hn Hw. split; [|done].
    by eapply Unwrap_wrong_passphrase.
Qed.

(** ** Journals *)

Lemma comes_after_nil p q : comes_after p q [].
Proof. intros l1 e l2 H. by destruct l1. Qed.

Lemma comes_after_snoc p q l e :
  comes_after p q l →
  (q e = true → ∃ e', e' ∈ l ∧ p e' = true) →
  comes_after p q (l ++ [e]).
Proof.
  intros Hl He l1 x l2 Heq Hq.
  destruct l2 as [|y l2 _] using rev_ind.
  - apply app_inj_tail in Heq as [-> ->]. by apply He.
  - rewrite app_comm_cons, app_assoc in Heq.
    apply app_inj_tail in Heq as [-> ->]. by apply (Hl l1 x l2).
Qed.

Lemma comes_after_none p q l :
  (∀ e, e ∈ l → q e = false) → comes_after p q l.
Proof.
  intros H l1 e l2 -> Hq. rewrite H in Hq; [done|].
  apply elem_of_app. right. by left.
Qed.

(** ** The archiving loop *)

Section ArchiveLoop.
Context (env : Env) (uploadPath passcode : string).

Lemma world_eta w : set_disk (disk w) w = w.
Proof. by destruct w. Qed.

Lemma archive_item_fate item zw s :
  archive_item env uploadPath passcode item zw s =
    (Continue (zw ++ archived env uploadPath passcode (disk (world s)) item),
     if is_incorporated env uploadPath (disk (world s)) item
     then emit (OsRemove (member_path uploadPath item))
            (on_world (λ w, set_disk (delete (member_path uploadPath item) (disk w)) w) s)
     else s).
Proof.
  unfold archive_item, archived, is_incorporated, full_entry, source_bytes, fate,
    os_Open, bind, read, ret, os_Remove, effect, member_path.
  destruct (disk (world s) !! filepath_Join uploadPath (FileItem.Filename item)) as [f|];
    [|by rewrite app_nil_r].
  destruct (os_Open_err env _); [by rewrite app_nil_r|].
  destruct (zip_Encrypt_err env _); [by rewrite app_nil_r|].
  destruct (io_Copy_err env _) as [[n e]|]; done.
Qed.

Lemma fate_agree d d' item :
  d' !! member_path uploadPath item = d !! member_path uploadPath item →
  fate env uploadPath d' item = fate env uploadPath d item.
Proof. unfold fate. by intros ->. Qed.

Lemma archived_agree d d' item :
  d' !! member_path uploadPath item = d !! member_path uploadPath item →
  archived env uploadPath passcode d' item = archived env uploadPath passcode d item.
Proof.
  intros H. unfold archived, full_entry, source_bytes.
  by rewrite (fate_agree _ _ _ H), H.
Qed.

Lemma flat_map_agree {A B} (f g : A → list B) (l : list A) :
  (∀ a, a ∈ l → f a = g a) → flat_map f l = flat_map g l.
Proof.
  induction l as [|a l IH]; intros H; [done|].
  simpl. rewrite (H a) by (by left). f_equal. apply IH.
  intros b Hb. apply H. by right.
Qed.

Lemma archive_items_effect items : ∀ zw s,
  ∃ zw' d' removed,
    archive_items env uploadPath passcode items zw s =
      (Continue zw', mkSt (set_disk d' (world s)) (log s ++ map OsRemove removed))
    ∧ removed ⊆ map (member_path uploadPath) items
    ∧ ∀ p, p ∉ removed → d' !! p = disk (world s) !! p.
Proof.
  induction items as [|item rest IH]; intros zw s.
  - exists zw, (disk (world s)), []. simpl. rewrite app_nil_r, world_eta.
    split; [by destruct s|]. split; [set_solver|done].
  - simpl. unfold bind at 1. rewrite archive_item_fate.
    destruct (is_incorporated env uploadPath (disk (world s)) item).
    + destruct (IH (zw ++ archived env uploadPath passcode (disk (world s)) item)
                  (emit (OsRemove (member_path uploadPath item))
                     (on_world
                        (λ w, set_disk (delete (member_path uploadPath item) (disk w)) w)
                        s)))
        as (zw' & d' & removed & Heq & Hsub & Hd).
      rewrite Heq.
      exists zw', d', (member_path uploadPath item :: removed). simpl.
      split; [by rewrite <- app_assoc|]. split.
      * intros x Hx. apply elem_of_cons in Hx as [->|Hx]; [by left|].
        right. by apply Hsub.
      * intros p Hp. apply not_elem_of_cons in Hp as [Hne Hp].
        rewrite Hd by done. by apply lookup_delete_ne.
    + destruct (IH (zw ++ archived env uploadPath passcode (disk (world s)) item) s)
        as (zw' & d' & removed & Heq & Hsub & Hd).
      rewrite Heq.
      exists zw', d', removed. split; [done|]. split; [|done].
      intros x Hx. right. by apply Hsub.
Qed.

Lemma archive_items_fate items : ∀ zw s,
  NoDup (map (member_path uploadPath) items) →
  ∃ s',
    archive_items env uploadPath passcode items zw s =
      (Continue (zw ++ flat_map (archived env uploadPath passcode (disk (world s))) items), s')
    ∧ (∀ item, item ∈ items →
         is_incorporated env uploadPath (disk (world s)) item = true →
         disk (world s') !! member_path uploadPath item = None)
    ∧ (∀ p, (∀ item, item ∈ items →
               is_incorporated env uploadPath (disk (world s)) item = true →
               member_path uploadPath item ≠ p) →
         disk (world s') !! p = disk (world s) !! p).
Proof.
  induction items as [|item rest IH]; intros zw s Hnd.
  - exists s. simpl. rewrite app_nil_r. split; [done|]. split; [|done].
    intros item Hin. by apply elem_of_nil in Hin.
  - simpl in Hnd. apply NoDup_cons in Hnd as [Hfresh Hnd].
    simpl. unfold bind at 1. rewrite archive_item_fate.
    set (s1 := if is_incorporated env uploadPath (disk (world s)) item then _ else s).
    assert (Hs1 : ∀ p, p ≠ member_path uploadPath item →
                       disk (world s1) !! p = disk (world s) !! p).
    { intros p Hp. subst s1. destruct (is_incorporated _ _ _ _); [|done].
      simpl. by apply lookup_delete_ne. }
    assert (Hrest : ∀ it, it ∈ rest →
              member_path uploadPath it ≠ member_path uploadPath item).
    { intros it Hit Heq. apply Hfresh. rewrite <- Heq.
      by apply list_elem_of_fmap_2. }
    destruct (IH (zw ++ archived env uploadPath passcode (disk (world s)) item) s1 Hnd)
      as (s' & -> & Hgone & Hkept).
    exists s'. split; [|split].
    + rewrite <- app_assoc.
      rewrite (flat_map_agree (archived env uploadPath passcode (disk (world s1)))
                 (archived env uploadPath passcode (disk (world s)))); [done|].
      intros it Hit. by apply archived_agree, Hs1, Hrest.
    + intros it Hit Hinc. apply elem_of_cons in Hit as [->|Hit].
      * rewrite Hkept.
        -- subst s1. rewrite Hinc. simpl. apply lookup_delete_eq.
        -- intros it Hit _ Heq. by apply (Hrest it).
      * apply Hgone; [done|]. unfold is_incorporated in *.
        by rewrite (fate_agree _ _ _ (Hs1 _ (Hrest it Hit))).
    + intros p Hp. rewrite Hkept.
      * subst s1. destruct (is_incorporated env uploadPath (disk (world s)) item) eqn:Hinc;
          [|done].
        simpl. apply lookup_delete_ne. apply (Hp item); [by left|done].
      * intros it Hit Hinc. apply Hp; [by right|].
        unfold is_incorporated in *.
        by rewrite <- (fate_agree _ _ _ (Hs1 _ (Hrest it Hit))).
Qed.

End ArchiveLoop.

(** ** From the closing of the archive to the answer *)

Ltac unfold_tail :=
  unfold serve, finish, wrap_for_recipients, persist, pin_code, parse_expiry,
    MakeNewCode, EncryptFile, db_Save, zip_Close, os_Remove,
    bind, ret, abort, panic, effect, read, emit, on_world in *.

Ltac inlog :=
  repeat (rewrite ?elem_of_app, ?elem_of_cons, ?elem_of_nil in * );
  intuition (try congruence; try discriminate).

Ltac find_in :=
  repeat first
    [ apply elem_of_app; right; apply list_elem_of_singleton; reflexivity
    | apply elem_of_app; left ].

Ltac exec_tail :=
  unfold_tail; repeat (case_match; simplify_eq; simpl in *; try congruence).

Lemma finish_stale_err env b passcode bp bfp keys fg zw s expDate g :
  time_Parse env (BundleFileGroupParam.ExpiredAt b) = inl expDate →
  DbSave g false ∈ log (snd (serve (finish env b passcode bp bfp keys fg zw) s)) →
  DbSave g false ∉ log s →
  fst (serve (finish env b passcode bp bfp keys fg zw) s) = Panic_nil_dereference.
Proof.
  intros Hparse Hin Hnot. unfold_tail. rewrite Hparse in *. simpl in *.
  repeat (case_match; simplify_eq; simpl in * ); try done.
  all: exfalso; inlog.
Qed.

Lemma finish_database env b passcode bp bfp keys fg zw s :
  let s' := snd (serve (finish env b passcode bp bfp keys fg zw) s) in
  (∀ g, DbSave g true ∉ log s') → database (world s') = database (world s).
Proof.
  exec_tail; intros Hno; try done.
  all: exfalso; eapply Hno; find_in.
Qed.

Lemma finish_log_extends env b passcode bp bfp keys fg zw s :
  ∃ new, log (snd (serve (finish env b passcode bp bfp keys fg zw) s)) = log s ++ new.
Proof.
  exec_tail; rewrite <- ?app_assoc; eauto using app_nil_r.
  all: try by (exists []; rewrite app_nil_r).
Qed.

Lemma finish_mint_after_save env b passcode bp bfp keys fg zw s id :
  comes_after (is_applied_save id) (is_mint id) (log s) →
  comes_after (is_applied_save id) (is_mint id)
    (log (snd (serve (finish env b passcode bp bfp keys fg zw) s))).
Proof.
  intros Hs. exec_tail; try done.
  all: repeat (apply comes_after_snoc; [|simpl; try done]); try done.
  all: intros Hq; eexists (DbSave _ true); (split; [find_in|]); simpl; exact Hq.
Qed.

Lemma finish_saved_ID env b passcode bp bfp keys fg zw s g ok :
  DbSave g ok ∈ log (snd (serve (finish env b passcode bp bfp keys fg zw) s)) →
  DbSave g ok ∈ log s ∨ FileGroup.ID g = FileGroup.ID fg.
Proof. exec_tail; intros Hin; inlog; simplify_eq; by right. Qed.

Lemma finish_mint_pin env b passcode bp bfp keys fg zw s g h :
  (0 < String.length (BundleFileGroupParam.DownloadPassword b))%nat →
  bcrypt_GenerateFromPassword env (BundleFileGroupParam.DownloadPassword b) = inl h →
  DbSave g true ∈ log (snd (serve (finish env b passcode bp bfp keys fg zw) s)) →
  DbSave g true ∉ log s →
  ∃ code,
    MakeNewCodeCall (FileGroup.ID fg) h code
      ∈ log (snd (serve (finish env b passcode bp bfp keys fg zw) s))
    ∧ ∀ c, code = Some c →
        ShortLink.mk c (FileGroup.ID fg) h
          ∈ short_links (world (snd (serve (finish env b passcode bp bfp keys fg zw) s))).
Proof.
  intros Hlen Hh Hin Hnot. apply Nat.ltb_lt in Hlen.
  unfold_tail. rewrite Hlen, Hh in *. simpl in *.
  repeat (case_match; simplify_eq; simpl in *; try congruence).
  all: try solve [exfalso; inlog].
  all: eexists; (split; [find_in|]); intros c Hc; simplify_eq; find_in.
Qed.



Lemma finish_unwrapped env b passcode bp bfp fg zw s :
  let s' := snd (serve (finish env b passcode bp bfp [] fg zw) s) in
  (∃ new, log s' = log s ++ new
          ∧ (∀ p, OsRemove p ∉ new)
          ∧ (∀ src dir ks out, EncryptFileCall src dir ks out ∉ new)
          ∧ (∀ g ok, DbSave g ok ∈ new → FileGroup.FileKey g = bfp))
  ∧ disk (world s') = alter (λ _, ZipArchive zw) bfp (disk (world s)).
Proof.
  exec_tail.
  all: split; [|done].
  all: rewrite <- ?app_assoc; eexists; (split; [reflexivity|]); simpl.
  all: split; [intros p Hp; inlog|].
  all: split; [intros src dir ks out Hp; inlog|].
  all: intros g ok Hg; inlog; by simplify_eq.
Qed.



Lemma finish_created env b passcode bp bfp keys fg zw s expiredAt url :
  fst (serve (finish env b passcode bp bfp keys fg zw) s) = JSON_Created expiredAt url →
  ∃ g, file_groups (world (snd (serve (finish env b passcode bp bfp keys fg zw) s)))
         = upsert g (file_groups (world s))
       ∧ FileGroup.ID g = FileGroup.ID fg
       ∧ FileGroup.BundledAt g = Some (time_Now env)
       ∧ DbSave g true ∈ log (snd (serve (finish env b passcode bp bfp keys fg zw) s)).
Proof.
  exec_tail; intros Hr; try done.
  all: eexists; (split; [reflexivity|]); (split; [done|]); (split; [done|]); find_in.
Qed.

(** ** The whole handler *)

Lemma FileGroup_eta g :
  FileGroup.set_SharedToUserIds (FileGroup.SharedToUserIds g) g = g.
Proof. by destruct g. Qed.

Lemma foldl_add_recipient keys : ∀ acc fg,
  foldl add_recipient (acc, fg) keys =
    (acc ++ map UserKey.Public keys,
     FileGroup.set_SharedToUserIds
       (FileGroup.SharedToUserIds fg ++ map UserKey.UserId keys) fg).
Proof.
  induction keys as [|key keys IH]; intros acc fg; simpl.
  - by rewrite !app_nil_r, FileGroup_eta.
  - rewrite IH. simpl. by rewrite <- !app_assoc.
Qed.

Lemma resolve_recipients_keys userId b fg w :
  (resolve_recipients userId b fg w).1 =
    if (0 <? length (BundleFileGroupParam.UserIds b))%nat
    then map UserKey.Public
           (db_Find_UserKeys (BundleFileGroupParam.UserIds b ++ [userId]) w)
    else [].
Proof.
  unfold resolve_recipients. destruct (0 <? length _)%nat; [|done].
  destruct (db_Find_UserKeys _ w) as [|k ks] eqn:Hk; [done|].
  cbn [length Nat.ltb Nat.leb]. by rewrite foldl_add_recipient.
Qed.

Lemma resolve_recipients_ID userId b fg w :
  FileGroup.ID (resolve_recipients userId b fg w).2 = FileGroup.ID fg.
Proof.
  unfold resolve_recipients. repeat case_match; try done.
  by rewrite foldl_add_recipient.
Qed.


Lemma BundleFileGroup_front env c s :
  (∃ status message,
     serve (BundleFileGroup env c) s = (AbortWithStatusJSON status message, s))
  ∨ (∃ userId bodyParams passcode fileGroup zw d' removed,
       middleware_GetUserId c = inl userId
       ∧ ShouldBindJSON env c = Some bodyParams
       ∧ bcrypt_GenerateFromPassword env (BundleFileGroupParam.Passcode bodyParams)
         = inl passcode
       ∧ db_First_FileGroup (BundleFileGroupParam.FileGroupId bodyParams) userId
           (world s) = Some fileGroup
       ∧ removed ⊆ map (member_path (dirpaths_upload env))
                     (db_Find_FileItems (FileGroup.ID fileGroup) (world s))
       ∧ (∀ p, p ∉ removed →
            d' !! p = <[bundle_path env fileGroup := Plain []]> (disk (world s)) !! p)
       ∧ serve (BundleFileGroup env c) s =
           serve (finish env bodyParams passcode (dirpaths_bundle env)
                    (bundle_path env fileGroup)
                    (resolve_recipients userId bodyParams fileGroup (world s)).1
                    (resolve_recipients userId bodyParams fileGroup (world s)).2 zw)
                 (mkSt (set_disk d' (world s))
                    (log s ++ OsCreate (bundle_path env fileGroup)
                       :: map OsRemove removed))).
Proof.
  unfold BundleFileGroup, prologue, fetchGroup.
  destruct (middleware_GetUserId c) as [userId|] eqn:Hu; [|left; by eauto].
  destruct (ShouldBindJSON env c) as [b|] eqn:Hb; [|left; by eauto].
  destruct (bcrypt_GenerateFromPassword env _) as [passcode|] eqn:Hp; [|left; by eauto].
  unfold serve, bind, ret, read, abort. simpl.
  destruct (db_First_FileGroup _ _ _) as [fg|] eqn:Hfg; [|left; by eauto].
  unfold bundleFetched, bind, read, abort, os_Create. simpl.
  destruct (length _ =? 0)%nat; [left; by eauto|].
  destruct (os_Create_err env _) eqn:Hc; [left; by eauto|]. simpl.
  assert (Hres : ∀ d, resolve_recipients userId b fg (set_disk d (world s))
                     = resolve_recipients userId b fg (world s)) by done.
  rewrite Hres.
  destruct (resolve_recipients userId b fg (world s)) as [keys fg'] eqn:Hr. simpl.
  match goal with
  | |- context [archive_items ?e ?u ?p ?i ?z ?st] =>
      destruct (archive_items_effect e u p i z st)
        as (zw' & d' & removed & Heq & Hsub & Hd); rewrite Heq
  end.
  right. exists userId, b, passcode, fg, zw', d', removed.
  repeat (split; [done|]).
  unfold emit, on_world, set_disk. simpl. rewrite <- app_assoc. simpl.
  by rewrite Hr.
Qed.

Lemma ShouldBindJSON_body env c b :
  ShouldBindJSON env c = Some b → request_body c = Some b.
Proof.
  unfold ShouldBindJSON. destruct (request_body c); [|done].
  by destruct (binding_ok env t); intros; simplify_eq.
Qed.

Lemma front_log_no_save removed p g ok :
  DbSave g ok ∉ OsCreate p :: map OsRemove removed.
Proof.
  intros Hin. apply elem_of_cons in Hin as [|Hin]; [done|].
  apply list_elem_of_fmap in Hin as (? & ? & ?). done.
Qed.


Lemma front_log_no_mint removed p id e :
  e ∈ OsCreate p :: map OsRemove removed → is_mint id e = false.
Proof.
  intros Hin. apply elem_of_cons in Hin as [->|Hin]; [done|].
  apply list_elem_of_fmap in Hin as (? & -> & ?). done.
Qed.


(** Claim C10.  When the request's expiry string parsed and the save of
    line 181 fails (an error of the store or no row affected), the branch of
    lines 182-188 calls [Error()] on the [err] left by [time.Parse], which is
    nil: the handler dereferences nil instead of answering with the failure
    of the store. *)
Theorem C10_failed_save_dereferences_nil_err env c w b expDate g :
  request_body c = Some b →
  time_Parse env (BundleFileGroupParam.ExpiredAt b) = inl expDate →
  DbSave g false ∈ log (handle env c w).2 →
  (handle env c w).1 = Panic_nil_dereference.
Proof.
  intros Hb Hparse Hin. unfold handle in *.
  destruct (BundleFileGroup_front env c (mkSt w []))
    as [(status & msg & Heq)|(u & b' & pc & fg & zw & d' & removed &
                               Hu & Hb' & Hpc & Hfg & Hsub & Hd & Heq)];
    rewrite Heq in *.
  - by apply elem_of_nil in Hin.
  - apply ShouldBindJSON_body in Hb'. simplify_eq.
    eapply finish_stale_err; [done..|]. apply front_log_no_save.
Qed.

(** Claim C2, as amended.  A request that ends without an applied save
    leaves every table of the store as it was; a request that ends before
    the archive file is created leaves the whole world, local files
    included, as it was.  (A request that fails after the archive was
    built, as when the wrap for the recipients fails, has already created
    the archive and removed the incorporated sources.) *)
Theorem C2_database_untouched_before_persistence env c w :
  ((∀ g, DbSave g true ∉ log (handle env c w).2) →
   database (world (handle env c w).2) = database w)
  ∧ ((∀ p, OsCreate p ∉ log (handle env c w).2) →
     world (handle env c w).2 = w).
Proof.
  unfold handle.
  destruct (BundleFileGroup_front env c (mkSt w []))
    as [(status & msg & Heq)|(u & b' & pc & fg & zw & d' & removed &
                               Hu & Hb' & Hpc & Hfg & Hsub & Hd & Heq)];
    rewrite Heq; [done|].
  split.
  - intros Hno. by rewrite finish_database.
  - intros Hno. exfalso.
    match type of Hno with
    | context [serve (finish ?e ?b ?pc ?bp ?bfp ?k ?fg ?zw) ?s] =>
        destruct (finish_log_extends e b pc bp bfp k fg zw s) as [new Hnew]
    end.
    eapply Hno. rewrite Hnew. simpl. by left.
Qed.

(** Claim C4.  In the journal of any request, a call of
    [shortlink.MakeNewCode] for a group comes after an applied save of that
    group; and when a download password was supplied and hashes, a request
    whose save was applied calls [MakeNewCode] with the bcrypt hash of that
    password as pin, the minted credential carrying it. *)
Theorem C4_credential_only_after_persistence env c w :
  (∀ id, comes_after (is_applied_save id) (is_mint id) (log (handle env c w).2))
  ∧ (∀ b g h,
       request_body c = Some b →
       (0 < String.length (BundleFileGroupParam.DownloadPassword b))%nat →
       bcrypt_GenerateFromPassword env (BundleFileGroupParam.DownloadPassword b)
         = inl h →
       DbSave g true ∈ log (handle env c w).2 →
       ∃ code,
         MakeNewCodeCall (FileGroup.ID g) h code ∈ log (handle env c w).2
         ∧ ∀ code', code = Some code' →
             ShortLink.mk code' (FileGroup.ID g) h
               ∈ short_links (world (handle env c w).2)).
Proof.
  unfold handle.
  destruct (BundleFileGroup_front env c (mkSt w []))
    as [(status & msg & Heq)|(u & b' & pc & fg & zw & d' & removed &
                               Hu & Hb' & Hpc & Hfg & Hsub & Hd & Heq)];
    rewrite Heq.
  - split; [intros id; apply comes_after_nil|].
    intros b g h _ _ _ Hin. by apply elem_of_nil in Hin.
  - split.
    + intros id. apply finish_mint_after_save, comes_after_none.
      intros e. apply front_log_no_mint.
    + intros b g h Hb Hlen Hh Hin.
      apply ShouldBindJSON_body in Hb'. simplify_eq.
      destruct (finish_saved_ID _ _ _ _ _ _ _ _ _ _ _ Hin) as [Hold| ->];
        [by apply front_log_no_save in Hold|].
      eapply finish_mint_pin; [done..|]. apply front_log_no_save.
Qed.


Lemma db_First_FileGroup_ID id userId w g :
  db_First_FileGroup id userId w = Some g →
  FileGroup.ID g = id ∧ FileGroup.UserId g = userId ∧ FileGroup.BundledAt g = None.
Proof.
  intros H. apply find_some in H as [_ H]. unfold eligible in H.
  apply andb_prop in H as [H H3]. apply andb_prop in H as [H1 H2].
  by repeat split; eapply bool_decide_eq_true_1.
Qed.

Lemma upsert_elem g rows r :
  r ∈ upsert g rows → FileGroup.ID r = FileGroup.ID g → r = g.
Proof.
  unfold upsert. destruct (existsb _ rows) eqn:Hex.
  - intros Hin Hid. apply list_elem_of_fmap in Hin as (x & -> & Hx).
    destruct (bool_decide (FileGroup.ID x = FileGroup.ID g)) eqn:Hd; [done|].
    apply bool_decide_eq_false in Hd. simpl in Hid. done.
  - intros Hin Hid. apply elem_of_app in Hin as [Hin|Hin].
    + exfalso. apply not_true_iff_false in Hex. apply Hex.
      apply existsb_exists. exists r. split; [by apply list_elem_of_In|].
      by apply bool_decide_eq_true_2.
    + by apply list_elem_of_singleton in Hin.
Qed.

Lemma upsert_mem g rows : g ∈ upsert g rows.
Proof.
  unfold upsert. destruct (existsb _ rows) eqn:Hex.
  - apply existsb_exists in Hex as (x & Hx & Hd).
    apply list_elem_of_fmap. exists x. rewrite Hd.
    split; [done|by apply list_elem_of_In].
  - apply elem_of_app. right. by left.
Qed.

Lemma bundled_in_rejected id userId w :
  bundled_in id w → db_First_FileGroup id userId w = None.
Proof.
  intros Hb. destruct (db_First_FileGroup id userId w) as [g|] eqn:Hg; [|done].
  pose proof Hg as Hg'. apply db_First_FileGroup_ID in Hg' as (Hid & _ & Hnone).
  apply find_some in Hg as [Hin _]. apply list_elem_of_In in Hin.
  by destruct (Hb g Hin Hid).
Qed.

Lemma rejected_invalid_group env c userId b passcode s :
  middleware_GetUserId c = inl userId →
  ShouldBindJSON env c = Some b →
  bcrypt_GenerateFromPassword env (BundleFileGroupParam.Passcode b) = inl passcode →
  db_First_FileGroup (BundleFileGroupParam.FileGroupId b) userId (world s) = None →
  serve (BundleFileGroup env c) s = (AbortWithStatusJSON 500 "Invalid file group", s).
Proof.
  intros Hu Hb Hp Hf. unfold serve, BundleFileGroup, prologue, fetchGroup.
  rewrite Hu, Hb, Hp. unfold bind, read, ret, abort. simpl. by rewrite Hf.
Qed.


(** Claim C1, as amended.  Eligibility is a fetch at the start of the
    request and persistence a separate, unconditional save at its end.  Once
    a request has been answered with success the group is marked bundled in
    the store, and any request for that group served from then on (in any
    world where the group is still marked bundled) is answered with the
    invalid-group failure and changes nothing. *)
Theorem C1_later_call_is_rejected env c w b expiredAt url :
  request_body c = Some b →
  (handle env c w).1 = JSON_Created expiredAt url →
  bundled_in (BundleFileGroupParam.FileGroupId b) (world (handle env c w).2)
  ∧ (∃ g, g ∈ file_groups (world (handle env c w).2)
          ∧ FileGroup.ID g = BundleFileGroupParam.FileGroupId b
          ∧ FileGroup.BundledAt g = Some (time_Now env))
  ∧ ∀ env' c' userId' b' passcode' s',
      bundled_in (BundleFileGroupParam.FileGroupId b) (world s') →
      middleware_GetUserId c' = inl userId' →
      ShouldBindJSON env' c' = Some b' →
      BundleFileGroupParam.FileGroupId b' = BundleFileGroupParam.FileGroupId b →
      bcrypt_GenerateFromPassword env' (BundleFileGroupParam.Passcode b') = inl passcode' →
      serve (BundleFileGroup env' c') s'
      = (AbortWithStatusJSON 500 "Invalid file group", s').
Proof.
  intros Hb Hr. unfold handle in *.
  destruct (BundleFileGroup_front env c (mkSt w []))
    as [(status & msg & Heq)|(u & b0 & pc & fg & zw & d' & removed &
                               Hu & Hb0 & Hpc & Hfg & Hsub & Hd & Heq)];
    rewrite Heq in *; [done|].
  apply ShouldBindJSON_body in Hb0. assert (b0 = b) as -> by congruence.
  apply finish_created in Hr as (g & Hrows & Hid & Hat & _).
  rewrite resolve_recipients_ID in Hid.
  apply db_First_FileGroup_ID in Hfg as (Hfg & _ & _). rewrite Hfg in Hid.
  split; [|split].
  - intros r Hin Hr. rewrite Hrows in Hin.
    apply upsert_elem in Hin; [|congruence]. subst r. by rewrite Hat.
  - exists g. split; [|done]. rewrite Hrows. apply upsert_mem.
  - intros env' c' userId' b' passcode' s' Hbun Hu' Hb' Hsame Hp'.
    eapply rejected_invalid_group; [done..|].
    rewrite Hsame. by apply bundled_in_rejected.
Qed.


Section Archive.
Context (env : Env) (uploadPath passcode : string).

Lemma archived_password d item e :
  e ∈ archived env uploadPath passcode d item →
  Password e = passcode ∧ Name e = FileItem.Realname item
  ∧ fate env uploadPath d item ≠ NotOpened
  ∧ fate env uploadPath d item ≠ NotPrepared.
Proof.
  unfold archived, full_entry.
  destruct (fate env uploadPath d item); intros He;
    try (by apply elem_of_nil in He);
    apply list_elem_of_singleton in He as ->; done.
Qed.

Lemma open_archive_all entries :
  (∀ e, e ∈ entries → Password e = passcode) →
  open_archive passcode entries = map (λ e, (Name e, Data e)) entries.
Proof.
  induction entries as [|e entries IH]; intros H; [done|].
  unfold open_archive in *. simpl.
  rewrite bool_decide_eq_true_2 by (apply H; by left).
  simpl. f_equal. apply IH. intros e' He'. apply H. by right.
Qed.

End Archive.

(** Claim C3, as amended.  For members stored under distinct names, the
    archive left by the loop holds, in order, one entry per member whose
    source opened and whose encrypted entry could be prepared, under the
    member's display name and encrypted under the passcode: the whole source
    when the copy succeeded, the bytes copied before the failure otherwise.
    Members that failed to open or to be prepared leave nothing. *)
Theorem C3_archive_holds_what_was_written env uploadPath passcode fileItems s :
  NoDup (map (member_path uploadPath) fileItems) →
  archive_of (archive_items env uploadPath passcode fileItems [] s)
    = flat_map (archived env uploadPath passcode (disk (world s))) fileItems
  ∧ open_archive passcode
      (archive_of (archive_items env uploadPath passcode fileItems [] s))
    = map (λ e, (Name e, Data e))
        (archive_of (archive_items env uploadPath passcode fileItems [] s))
  ∧ (∀ item, item ∈ fileItems →
       fate env uploadPath (disk (world s)) item = Incorporated →
       full_entry env uploadPath passcode (disk (world s)) item
         ∈ archive_of (archive_items env uploadPath passcode fileItems [] s))
  ∧ (∀ e, e ∈ archive_of (archive_items env uploadPath passcode fileItems [] s) →
       Password e = passcode
       ∧ ∃ item, item ∈ fileItems ∧ Name e = FileItem.Realname item
                 ∧ fate env uploadPath (disk (world s)) item ≠ NotOpened
                 ∧ fate env uploadPath (disk (world s)) item ≠ NotPrepared).
Proof.
  intros Hnd.
  destruct (archive_items_fate env uploadPath passcode fileItems [] s Hnd)
    as (s' & Heq & _ & _).
  unfold archive_of. rewrite Heq. simpl.
  assert (Hall : ∀ e, e ∈ flat_map (archived env uploadPath passcode (disk (world s)))
                            fileItems →
                 Password e = passcode
                 ∧ ∃ item, item ∈ fileItems ∧ Name e = FileItem.Realname item
                    ∧ fate env uploadPath (disk (world s)) item ≠ NotOpened
                    ∧ fate env uploadPath (disk (world s)) item ≠ NotPrepared).
  { intros e He. apply list_elem_of_In, in_flat_map in He as (item & Hitem & He).
    apply list_elem_of_In in Hitem, He.
    apply archived_password in He as (? & ? & ? & ?). eauto 10. }
  split; [done|]. split; [|split; [|done]].
  - apply open_archive_all. intros e He. by apply Hall.
  - intros item Hitem Hfate. apply list_elem_of_In, in_flat_map.
    exists item. split; [by apply list_elem_of_In|].
    unfold archived. rewrite Hfate. by left.
Qed.

Lemma NoDup_map_eq {A B} (f : A → B) (l : list A) x y :
  NoDup (map f l) → x ∈ l → y ∈ l → f x = f y → x = y.
Proof.
  induction l as [|a l IH]; intros Hnd Hx Hy Hf; [by apply elem_of_nil in Hx|].
  simpl in Hnd. apply NoDup_cons in Hnd as [Ha Hnd].
  apply elem_of_cons in Hx as [->|Hx]; apply elem_of_cons in Hy as [->|Hy].
  - done.
  - exfalso. apply Ha. rewrite Hf. by apply list_elem_of_fmap_2.
  - exfalso. apply Ha. rewrite <- Hf. by apply list_elem_of_fmap_2.
  - by apply IH.
Qed.

(** Claim C5.  For members stored under distinct names: the source of a
    member is removed by the loop exactly when the member was incorporated
    (opened, prepared and copied in full, its whole content being in the
    archive); the source of any other member is left as it was. *)
Theorem C5_source_removed_iff_incorporated env uploadPath passcode fileItems zw s item :
  NoDup (map (member_path uploadPath) fileItems) →
  item ∈ fileItems →
  ((is_Some (disk (world s) !! member_path uploadPath item)
    ∧ disk (world (archive_items env uploadPath passcode fileItems zw s).2)
        !! member_path uploadPath item = None)
   ↔ fate env uploadPath (disk (world s)) item = Incorporated)
  ∧ (fate env uploadPath (disk (world s)) item ≠ Incorporated →
     disk (world (archive_items env uploadPath passcode fileItems zw s).2)
       !! member_path uploadPath item
     = disk (world s) !! member_path uploadPath item)
  ∧ (fate env uploadPath (disk (world s)) item = Incorporated →
     full_entry env uploadPath passcode (disk (world s)) item
       ∈ archive_of (archive_items env uploadPath passcode fileItems zw s)).
Proof.
  intros Hnd Hitem.
  destruct (archive_items_fate env uploadPath passcode fileItems zw s Hnd)
    as (s' & Heq & Hgone & Hkept).
  unfold archive_of. rewrite Heq. simpl.
  assert (Hinc : ∀ it, is_incorporated env uploadPath (disk (world s)) it = true
                       ↔ fate env uploadPath (disk (world s)) it = Incorporated).
  { intros it. unfold is_incorporated.
    destruct (fate env uploadPath (disk (world s)) it); split; done. }
  assert (Hother : fate env uploadPath (disk (world s)) item ≠ Incorporated →
            disk (world s') !! member_path uploadPath item
            = disk (world s) !! member_path uploadPath item).
  { intros Hfate. apply Hkept. intros it Hit Hitinc Hsame.
    apply Hfate. apply Hinc in Hitinc.
    by rewrite <- (NoDup_map_eq _ _ _ _ Hnd Hit Hitem Hsame). }
  split; [|split; [done|]].
  - split.
    + intros [[f Hf] Hnone].
      destruct (fate env uploadPath (disk (world s)) item) eqn:Hfate; try done.
      all: rewrite Hother, Hf in Hnone by done; done.
    + intros Hfate. split; [|apply Hgone; [done|by apply Hinc]].
      unfold fate in Hfate.
      destruct (disk (world s) !! member_path uploadPath item); [by eexists|done].
  - intros Hfate. apply elem_of_app. right.
    apply list_elem_of_In, in_flat_map.
    exists item. split; [by apply list_elem_of_In|].
    unfold archived. rewrite Hfate. by left.
Qed.

(** ** Requests side by side *)

(** A request scheduled alone is the handler: the two observation points of
    a thread compose to [BundleFileGroup]. *)
Lemma schedule_alone env c s :
  schedule env [0; 0]%nat [Arrived c] s
  = ([Answered (serve (BundleFileGroup env c) s).1], (serve (BundleFileGroup env c) s).2).
Proof.
  unfold schedule, advance, serve, BundleFileGroup, bind. simpl.
  destruct (prologue env c s) as [[[[u b] p]|r] s1]; simpl; [|done].
  destruct (fetchGroup u b s1) as [[fg|r] s2]; simpl; [|done].
  unfold ret. simpl.
  by destruct (bundleFetched env u b p fg s2) as [[r|r] s3].
Qed.

(** Two requests for the same group whose fetches both come before either
    save: both are answered with success, the store applies two saves of the
    group, and no caller sees the invalid-group failure. *)
Lemma C1_interleaved_requests_both_succeed :
  (schedule Example.env [0; 1; 0; 1]%nat
     [Arrived (Example.request "" []); Arrived (Example.request "" [])]
     Example.s0).1
  = [Answered (JSON_Created (Some 1735689600%Z) "https://hansip.example/d/code");
     Answered (JSON_Created (Some 1735689600%Z) "https://hansip.example/d/codei")]
  ∧ length (applied_saves "g1"
              (log (schedule Example.env [0; 1; 0; 1]%nat
                      [Arrived (Example.request "" []); Arrived (Example.request "" [])]
                      Example.s0).2)) = 2%nat
  ∧ ¬ serialized
        (schedule Example.env [0; 1; 0; 1]%nat
           [Arrived (Example.request "" []); Arrived (Example.request "" [])]
           Example.s0).1.
Proof.
  assert (Hrun : (schedule Example.env [0; 1; 0; 1]%nat
                    [Arrived (Example.request "" []); Arrived (Example.request "" [])]
                    Example.s0).1
                 = [Answered (JSON_Created (Some 1735689600%Z)
                                "https://hansip.example/d/code");
                    Answered (JSON_Created (Some 1735689600%Z)
                                "https://hansip.example/d/codei")])
    by (vm_compute; reflexivity).
  split; [exact Hrun|]. split; [vm_compute; reflexivity|].
  rewrite Hrun. intros (i & t & Hi & Hc & Hothers).
  destruct i as [|[|i]]; [| |done].
  - by specialize (Hothers 1%nat _ ltac:(done) eq_refl).
  - by specialize (Hothers 0%nat _ ltac:(done) eq_refl).
Qed.

(** ** The example deployment *)

Ltac in_journal :=
  match goal with
  | |- _ ∈ ?l =>
      let j := fresh "journal" in
      set (j := l); vm_compute in j; subst j;
      repeat first [apply list_elem_of_here | apply list_elem_of_further]
  end.

(** A request whose wrap for the recipients fails: it is answered with the
    failure before any save, the store is untouched, but the source of the
    first member is gone from local storage. *)
Lemma C2_failed_wrap_leaves_changes :
  (handle Example.env_wrap_fails (Example.request "" ["u1"]) Example.w0).1
  = AbortWithStatusJSON 500 "Unable to encrypt the file:age: no recipients"
  ∧ (∀ g ok,
       DbSave g ok
         ∉ log (handle Example.env_wrap_fails (Example.request "" ["u1"]) Example.w0).2)
  ∧ disk Example.w0 !! "upload/f-0001" = Some (Plain Example.bytes_a)
  ∧ disk (world (handle Example.env_wrap_fails (Example.request "" ["u1"])
                   Example.w0).2) !! "upload/f-0001" = None
  ∧ world (handle Example.env_wrap_fails (Example.request "" ["u1"]) Example.w0).2
    ≠ Example.w0.
Proof.
  assert (Hgone : disk (world (handle Example.env_wrap_fails
                                 (Example.request "" ["u1"]) Example.w0).2)
                    !! "upload/f-0001" = None) by (vm_compute; reflexivity).
  assert (Hthere : disk Example.w0 !! "upload/f-0001" = Some (Plain Example.bytes_a))
    by (vm_compute; reflexivity).
  split; [vm_compute; reflexivity|]. split; [|split; [done|split; [done|]]].
  - intros g ok.
    set (l := log _). vm_compute in l. subst l. intros Hin. inlog.
  - intros Heq. rewrite Heq in Hgone. congruence.
Qed.

(** A member whose copy fails after two bytes stays in the archive, with
    those two bytes. *)
Lemma C3_partial_entry_is_kept :
  fate Example.env_copy_fails "upload" (disk Example.w0) Example.a_txt = CopyFailed 2
  ∧ mkZipEntry "a.txt" "secret1" (take 2 Example.bytes_a)
      ∈ archive_of (archive_items Example.env_copy_fails "upload" "secret1"
                      [Example.a_txt; Example.b_txt] [] Example.s0)
  ∧ ¬ only_incorporated Example.env_copy_fails "upload" "secret1" (disk Example.w0)
        [Example.a_txt; Example.b_txt]
        (archive_of (archive_items Example.env_copy_fails "upload" "secret1"
                       [Example.a_txt; Example.b_txt] [] Example.s0)).
Proof.
  split; [vm_compute; reflexivity|]. split.
  - set (a := archive_of _). vm_compute in a. subst a. by left.
  - unfold only_incorporated. intros Heq. vm_compute in Heq. discriminate.
Qed.

Lemma C1_later_call_is_rejected_witness :
  serve (BundleFileGroup Example.env (Example.request "" [])) (mkSt Example.w1 [])
  = (AbortWithStatusJSON 500 "Invalid file group", mkSt Example.w1 []).
Proof.
  destruct (C1_later_call_is_rejected Example.env (Example.request "" []) Example.w0
              (Example.params "" []) (Some 1735689600%Z)
              "https://hansip.example/d/code" eq_refl
              ltac:(vm_compute; reflexivity))
    as (Hbundled & _ & Hrejected).
  apply (Hrejected Example.env (Example.request "" []) "owner"
           (Example.params "" []) "$2a$10$secret1");
    [exact Hbundled|reflexivity..].
Defined.

Lemma C2_database_untouched_before_persistence_witness :
  database (world (handle Example.env_wrap_fails (Example.request "" ["u1"])
                     Example.w0).2)
  = database Example.w0
  ∧ world (handle Example.env (mkContext (inr (errorString "no session")) None)
             Example.w0).2
    = Example.w0.
Proof.
  split.
  - apply (C2_database_untouched_before_persistence Example.env_wrap_fails
             (Example.request "" ["u1"]) Example.w0).
    intros g. set (l := log _). vm_compute in l. subst l. intros Hin. inlog.
  - apply (C2_database_untouched_before_persistence Example.env
             (mkContext (inr (errorString "no session")) None) Example.w0).
    intros p. set (l := log _). vm_compute in l. subst l. intros Hin. inlog.
Defined.

Lemma Example_members_distinct :
  NoDup (map (member_path "upload") [Example.a_txt; Example.b_txt]).
Proof.
  vm_compute. apply NoDup_cons. split; [intros Hin; inlog|].
  apply NoDup_cons. split; [intros Hin; inlog|]. apply NoDup_nil. done.
Defined.

Lemma C3_archive_holds_what_was_written_witness :
  archive_of (archive_items Example.env_copy_fails "upload" "secret1"
                [Example.a_txt; Example.b_txt] [] Example.s0)
  = flat_map (archived Example.env_copy_fails "upload" "secret1" (disk Example.w0))
      [Example.a_txt; Example.b_txt].
Proof.
  apply (C3_archive_holds_what_was_written Example.env_copy_fails "upload" "secret1"
           [Example.a_txt; Example.b_txt] Example.s0 Example_members_distinct).
Defined.

Lemma C4_credential_only_after_persistence_witness :
  ∃ code,
    MakeNewCodeCall "g1" "$2a$10$pin-1234" code
      ∈ log (handle Example.env (Example.request "pin-1234" []) Example.w0).2
    ∧ ∀ code', code = Some code' →
        ShortLink.mk code' "g1" "$2a$10$pin-1234"
          ∈ short_links (world (handle Example.env (Example.request "pin-1234" [])
                                  Example.w0).2).
Proof.
  destruct (C4_credential_only_after_persistence Example.env
              (Example.request "pin-1234" []) Example.w0) as [_ Hpin].
  apply (Hpin (Example.params "pin-1234" [])
           (FileGroup.mk "g1" "owner" (Some 1700000000%Z) (Some 1735689600%Z)
              "$2a$10$secret1" "bundle/g1.zip" [])
           "$2a$10$pin-1234"); [reflexivity|simpl; lia|reflexivity|].
  set (l := log _). vm_compute in l. subst l.
  repeat first [apply list_elem_of_here | apply list_elem_of_further].
Defined.

Lemma C5_source_removed_iff_incorporated_witness :
  disk (world (archive_items Example.env_copy_fails "upload" "secret1"
                 [Example.a_txt; Example.b_txt] [] Example.s0).2)
    !! member_path "upload" Example.b_txt = None
  ∧ disk (world (archive_items Example.env_copy_fails "upload" "secret1"
                   [Example.a_txt; Example.b_txt] [] Example.s0).2)
      !! member_path "upload" Example.a_txt
    = disk Example.w0 !! member_path "upload" Example.a_txt.
Proof.
  split.
  - destruct (C5_source_removed_iff_incorporated Example.env_copy_fails "upload"
                "secret1" [Example.a_txt; Example.b_txt] [] Example.s0 Example.b_txt
                Example_members_distinct ltac:(right; left))
      as [[_ Hremoved] _].
    apply Hremoved. vm_compute. reflexivity.
  - destruct (C5_source_removed_iff_incorporated Example.env_copy_fails "upload"
                "secret1" [Example.a_txt; Example.b_txt] [] Example.s0 Example.a_txt
                Example_members_distinct ltac:(left))
      as (_ & Hkept & _).
    apply Hkept. vm_compute. discriminate.
Defined.


Lemma Example_archive_path_fresh :
  bundle_path Example.env Example.G
    ∉ map (member_path (dirpaths_upload Example.env))
        (db_Find_FileItems (FileGroup.ID Example.G) Example.w0).
Proof.
  intros Hin. set (l := map _ _) in Hin. vm_compute in l. subst l.
  set (p := bundle_path _ _) in Hin. vm_compute in p. subst p. inlog.
Defined.



Lemma C10_failed_save_dereferences_nil_err_witness :
  (handle Example.env_save_fails (Example.request "" []) Example.w0).1
  = Panic_nil_dereference.
Proof.
  apply (C10_failed_save_dereferences_nil_err Example.env_save_fails
           (Example.request "" []) Example.w0 (Example.params "" [])
           1735689600%Z Example.G_bundled eq_refl eq_refl).
  in_journal.
Defined.

Lemma C9_passphrase_identity_unwrap_witness :
  (Unwrap (λ _, inl "hunter2") unit (λ _, inl tt)
     (λ _ _, (None, Some ErrIncorrectIdentity))
     [mkStanza "scrypt" [] []]).1
  = (None, Some (errorString "incorrect passphrase"))
  ∧ Unwrap (λ _, inl "hunter2") unit (λ _, inl tt)
      (λ _ _, (None, Some ErrIncorrectIdentity))
      [mkStanza "scrypt" [] []; mkStanza "X25519" [] []]
    = ((None, Some (errorString "an scrypt recipient must be the only one")), 0%nat)
  ∧ Unwrap (λ _, inl "hunter2") unit (λ _, inl tt)
      (λ _ _, (None, Some ErrIncorrectIdentity))
      [mkStanza "X25519" [] []]
    = ((None, Some ErrIncorrectIdentity), 0%nat).
Proof.
  split; [|split].
  - destruct (C9_passphrase_identity_unwrap (λ _, inl "hunter2") unit (λ _, inl tt)
                (λ _ _, (None, Some ErrIncorrectIdentity))
                [mkStanza "scrypt" [] []]) as (_ & _ & _ & Hwrong).
    apply (Hwrong "hunter2" tt); [|reflexivity..].
    exists (mkStanza "scrypt" [] []). split; reflexivity.
  - destruct (C9_passphrase_identity_unwrap (λ _, inl "hunter2") unit (λ _, inl tt)
                (λ _ _, (None, Some ErrIncorrectIdentity))
                [mkStanza "scrypt" [] []; mkStanza "X25519" [] []])
      as (_ & Hmixed & _).
    apply Hmixed; [|simpl; lia].
    exists (mkStanza "scrypt" [] []). split; [by left|reflexivity].
  - destruct (C9_passphrase_identity_unwrap (λ _, inl "hunter2") unit (λ _, inl tt)
                (λ _ _, (None, Some ErrIncorrectIdentity))
                [mkStanza "X25519" [] []])
      as (_ & _ & Hnone & _).
    apply Hnone. intros (s & Hin & Hs).
    apply list_elem_of_singleton in Hin. subst s. discriminate.
Defined.


(** * Further properties of the code *)

(** ** The token check *)

Lemma strings_Split_not_nil s sep : auth.strings_Split s sep ≠ [].
Proof.
  induction s as [|a s IH]; simpl; [done|].
  destruct (bool_decide (a = sep)); [done|].
  by destruct (auth.strings_Split s sep).
Qed.

Lemma strings_Split_no_sep s sep :
  auth.strings_Contains s sep = false → auth.strings_Split s sep = [s].
Proof.
  induction s as [|a s IH]; simpl; [done|].
  intros H. apply orb_false_iff in H as [Ha Hs].
  rewrite Ha. by rewrite IH.
Qed.

Lemma strings_Split_app s sep rest :
  auth.strings_Contains s sep = false →
  auth.strings_Split (s +:+ String sep rest) sep = s :: auth.strings_Split rest sep.
Proof.
  induction s as [|a s IH]; simpl.
  - intros _. by rewrite bool_decide_eq_true_2.
  - intros H. apply orb_false_iff in H as [Ha Hs].
    rewrite Ha. by rewrite IH.
Qed.

Lemma strings_Split_single s sep :
  (length (auth.strings_Split s sep) ≤ 1)%nat ↔ auth.strings_Contains s sep = false.
Proof.
  split; [|intros H; by rewrite strings_Split_no_sep].
  induction s as [|a s IH]; simpl; [done|].
  destruct (bool_decide (a = sep)) eqn:Ha; simpl.
  - pose proof (strings_Split_not_nil s sep).
    destruct (auth.strings_Split s sep); [done|simpl; lia].
  - destruct (auth.strings_Split s sep) eqn:Hs; [by destruct (strings_Split_not_nil s sep)|].
    simpl in *. done.
Qed.

(** The answer to a header [scheme rest] is decided by the first field of
    [rest]. *)
Lemma CheckToken_fields scheme rest now rows fields :
  auth.strings_Contains scheme " " = false →
  auth.strings_Split rest " " = fields →
  auth.CheckToken (auth.authorized_by scheme rest now rows)
  = match find (λ r, bool_decide (hd "" fields = "")
                     || bool_decide (auth.AccessToken.Token r = hd "" fields)) rows with
    | None => auth.AbortWithStatusJSON 401 "Unauthorized"
    | Some acct =>
        if auth.Before (auth.AccessToken.TokenExpiredAt acct) now
        then auth.AbortWithStatusJSON 401 "Unauthorized"
        else auth.JSON 200
    end.
Proof.
  intros Hscheme <-. unfold auth.CheckToken, auth.authorized_by, auth.db_First_AccessToken.
  cbn [auth.header auth.Authorization auth.now auth.rows auth.query_err].
  change (scheme +:+ " " +:+ rest) with (scheme +:+ String " " rest).
  rewrite strings_Split_app by done.
  pose proof (strings_Split_not_nil rest " ").
  destruct (auth.strings_Split rest " ") as [|t ts]; done.
Qed.

(** Extra X1.  [CheckToken] answers either 200 or 401 "Unauthorized", and
    200 only to a request whose [Authorization] header holds a space, whose
    query the store answered, and for which the table of access tokens has
    a row that has not expired. *)
Theorem X1_CheckToken_sound q :
  (auth.CheckToken q = auth.JSON 200
   ∨ auth.CheckToken q = auth.AbortWithStatusJSON 401 "Unauthorized")
  ∧ (auth.CheckToken q = auth.JSON 200 →
     ∃ h acct,
       auth.header q = Some h
       ∧ auth.strings_Contains (auth.Authorization h) " " = true
       ∧ auth.query_err q = None
       ∧ acct ∈ auth.rows q
       ∧ (auth.now q ≤ auth.AccessToken.TokenExpiredAt acct)%Z).
Proof.
  unfold auth.CheckToken. destruct (auth.header q) as [h|]; [|split; [by right|done]].
  destruct (length _ <=? 1)%nat eqn:Hlen; [split; [by right|done]|].
  destruct (auth.db_First_AccessToken q _) as [acct|] eqn:Hfind;
    [|split; [by right|done]].
  destruct (auth.Before _ _) eqn:Hbefore; [split; [by right|done]|].
  split; [by left|]. intros _. exists h, acct. split; [done|].
  unfold auth.db_First_AccessToken in Hfind.
  destruct (auth.query_err q); [done|].
  split; [|split; [done|split]].
  - destruct (auth.strings_Contains (auth.Authorization h) " ") eqn:Hc; [done|].
    apply strings_Split_single in Hc. apply Nat.leb_gt in Hlen. lia.
  - apply find_some in Hfind as [Hin _]. by apply list_elem_of_In.
  - unfold auth.Before in Hbefore. by apply Z.ltb_ge in Hbefore.
Qed.

(** Extra X2.  For a header [scheme token] without further spaces and
    with a token that is not empty, served by a store that answers,
    [CheckToken] gives 200 exactly when the first row of the table carrying
    that token expires at [now] or later: a first row that has expired
    hides a later valid one with the same token. *)
Theorem X2_CheckToken_token scheme token now rows :
  auth.strings_Contains scheme " " = false →
  auth.strings_Contains token " " = false →
  token ≠ "" →
  auth.CheckToken (auth.authorized_by scheme token now rows) = auth.JSON 200
  ↔ ∃ acct,
      find (λ r, bool_decide (auth.AccessToken.Token r = token)) rows = Some acct
      ∧ (now ≤ auth.AccessToken.TokenExpiredAt acct)%Z.
Proof.
  intros Hscheme Htoken Hne.
  rewrite (CheckToken_fields scheme token now rows [token])
    by (done || by apply strings_Split_no_sep).
  simpl. rewrite bool_decide_eq_false_2 by done. simpl.
  destruct (find _ rows) as [acct|]; [|split; [done|by intros (? & ? & ?)]].
  unfold auth.Before. destruct (Z.ltb_spec (auth.AccessToken.TokenExpiredAt acct) now).
  - split; [done|]. intros (a & [= <-] & Hle). lia.
  - split; [|done]. intros _. by exists acct.
Qed.

(** Extra X3.  [CheckToken] reads the second field of the header only:
    the scheme word is never compared with anything, so any word without
    space does, and whatever follows a further space after the token is
    ignored. *)
Theorem X3_CheckToken_second_field_only scheme scheme' token rest now rows :
  auth.strings_Contains scheme " " = false →
  auth.strings_Contains scheme' " " = false →
  auth.strings_Contains token " " = false →
  auth.CheckToken (auth.authorized_by scheme (token +:+ " " +:+ rest) now rows)
  = auth.CheckToken (auth.authorized_by scheme' token now rows).
Proof.
  intros Hscheme Hscheme' Htoken.
  rewrite (CheckToken_fields scheme (token +:+ " " +:+ rest) now rows
             (token :: auth.strings_Split rest " ")) by
    (done || by apply (strings_Split_app token " "%char rest)).
  rewrite (CheckToken_fields scheme' token now rows [token])
    by (done || by apply strings_Split_no_sep).
  done.
Qed.

(** Extra X4.  A header whose second field is empty (a scheme word
    followed by a space and nothing, or by two spaces) leaves the query
    without condition: served by a store that answers, [CheckToken] gives
    200 exactly when the table has a first row and that row has not
    expired, whatever its token. *)
Theorem X4_CheckToken_empty_token scheme rest now rows :
  auth.strings_Contains scheme " " = false →
  auth.CheckToken (auth.authorized_by scheme (" " +:+ rest) now rows)
  = auth.CheckToken (auth.authorized_by scheme "" now rows)
  ∧ (auth.CheckToken (auth.authorized_by scheme "" now rows) = auth.JSON 200
     ↔ ∃ acct, head rows = Some acct
               ∧ (now ≤ auth.AccessToken.TokenExpiredAt acct)%Z).
Proof.
  intros Hscheme.
  rewrite (CheckToken_fields scheme (" " +:+ rest) now rows
             ("" :: auth.strings_Split rest " ")) by done.
  rewrite (CheckToken_fields scheme "" now rows [""]) by done.
  split; [done|]. simpl.
  destruct rows as [|acct rows]; simpl; [split; [done|by intros (? & ? & ?)]|].
  unfold auth.Before. destruct (Z.ltb_spec (auth.AccessToken.TokenExpiredAt acct) now).
  - split; [done|]. intros (a & [= <-] & Hle). lia.
  - split; [|done]. intros _. by exists acct.
Qed.

Lemma X1_CheckToken_sound_witness :
  ∃ h acct,
    auth.header (auth.authorized_by "Bearer" "tok-new" Scenarios.token_now
                   Scenarios.token_rows) = Some h
    ∧ auth.strings_Contains (auth.Authorization h) " " = true
    ∧ auth.query_err (auth.authorized_by "Bearer" "tok-new" Scenarios.token_now
                        Scenarios.token_rows) = None
    ∧ acct ∈ Scenarios.token_rows
    ∧ (Scenarios.token_now ≤ auth.AccessToken.TokenExpiredAt acct)%Z.
Proof.
  apply (X1_CheckToken_sound
           (auth.authorized_by "Bearer" "tok-new" Scenarios.token_now
              Scenarios.token_rows)).
  vm_compute. reflexivity.
Defined.

Lemma X2_CheckToken_token_witness :
  auth.CheckToken (auth.authorized_by "Bearer" "tok-new" Scenarios.token_now
                     Scenarios.token_rows)
  = auth.JSON 200.
Proof.
  apply (X2_CheckToken_token "Bearer" "tok-new" Scenarios.token_now Scenarios.token_rows);
    [reflexivity|reflexivity|discriminate|].
  exists (auth.AccessToken.mk "tok-new" 1800000000%Z).
  split; [reflexivity|]. vm_compute. discriminate.
Defined.

Lemma X3_CheckToken_second_field_only_witness :
  auth.CheckToken
    (auth.authorized_by "Bearer" ("tok-new" +:+ " " +:+ "trailing words")
       Scenarios.token_now Scenarios.token_rows)
  = auth.CheckToken
      (auth.authorized_by "Basic" "tok-new" Scenarios.token_now Scenarios.token_rows).
Proof.
  apply (X3_CheckToken_second_field_only "Bearer" "Basic" "tok-new" "trailing words"
           Scenarios.token_now Scenarios.token_rows); reflexivity.
Defined.

Lemma X4_CheckToken_empty_token_witness :
  auth.CheckToken (auth.authorized_by "Bearer" "" 1500000000%Z Scenarios.token_rows)
  = auth.JSON 200.
Proof.
  apply (X4_CheckToken_empty_token "Bearer" "" 1500000000%Z Scenarios.token_rows);
    [reflexivity|].
  exists (auth.AccessToken.mk "tok-old" 1600000000%Z).
  split; [reflexivity|]. vm_compute. discriminate.
Defined.

(** ** The passphrase identity, continued *)

(** Extra X5.  [Unwrap] returns a file key without error exactly when the
    list is one scrypt stanza, the callback gave a passphrase, the scrypt
    identity could be built from it and that identity unwrapped the list
    without error; the file key is the one the scrypt identity returned. *)
Theorem X5_Unwrap_succeeds_iff
    (Passphrase : unit → string + error) (ScryptIdentity : Type)
    (NewScryptIdentity : string → ScryptIdentity + error)
    (ScryptIdentity_Unwrap : ScryptIdentity → list Stanza → Unwrapped)
    (stanzas : list Stanza) (fileKey : option (list byte)) :
  (Unwrap Passphrase ScryptIdentity NewScryptIdentity ScryptIdentity_Unwrap stanzas).1
  = (fileKey, None)
  ↔ ∃ pass ii,
      sole_scrypt stanzas
      ∧ Passphrase tt = inl pass
      ∧ NewScryptIdentity pass = inl ii
      ∧ ScryptIdentity_Unwrap ii stanzas = (fileKey, None).
Proof.
  split.
  - intros Hok.
    assert (Hsole : sole_scrypt stanzas).
    { apply (Unwrap_prompted_sole Passphrase ScryptIdentity NewScryptIdentity
               ScryptIdentity_Unwrap).
      revert Hok. unfold Unwrap. repeat (case_match; simpl; try done). }
    destruct Hsole as (s & -> & Hs). revert Hok. unfold Unwrap.
    rewrite scan_stanzas_single. simpl. rewrite bool_decide_eq_true_2 by done. simpl.
    destruct (Passphrase tt) as [pass|] eqn:Hp; [|done].
    destruct (NewScryptIdentity pass) as [ii|] eqn:Hn; [|done].
    destruct (ScryptIdentity_Unwrap ii [s]) as [fk err] eqn:Hu.
    destruct (errors_Is_ErrIncorrectIdentity err); [done|]. simpl.
    intros [= -> ->]. exists pass, ii. split; [by exists s|done].
  - intros (pass & ii & (s & -> & Hs) & Hp & Hn & Hu). unfold Unwrap.
    rewrite scan_stanzas_single. simpl. rewrite bool_decide_eq_true_2 by done. simpl.
    by rewrite Hp, Hn, Hu.
Qed.

(** Extra X6.  For a list of one scrypt stanza, an error of the passphrase
    callback ends [Unwrap] with "could not read passphrase: " followed by
    the text of that error, whatever the age library would have done; the
    callback's error is not wrapped, so the result is never
    [ErrIncorrectIdentity] even when the callback returned that sentinel.
    An error of [age.NewScryptIdentity] is returned as it is. *)
Theorem X6_Unwrap_failure_before_delegation
    (Passphrase : unit → string + error) (ScryptIdentity : Type)
    (NewScryptIdentity : string → ScryptIdentity + error)
    (ScryptIdentity_Unwrap : ScryptIdentity → list Stanza → Unwrapped)
    (stanzas : list Stanza) :
  sole_scrypt stanzas →
  (∀ e, Passphrase tt = inr e →
     Unwrap Passphrase ScryptIdentity NewScryptIdentity ScryptIdentity_Unwrap stanzas
     = ((None, Some (errorString ("could not read passphrase: " +:+ Error e))), 1%nat)
     ∧ errors_Is_ErrIncorrectIdentity
         (Unwrap Passphrase ScryptIdentity NewScryptIdentity ScryptIdentity_Unwrap
            stanzas).1.2 = false)
  ∧ (∀ pass e, Passphrase tt = inl pass → NewScryptIdentity pass = inr e →
       Unwrap Passphrase ScryptIdentity NewScryptIdentity ScryptIdentity_Unwrap stanzas
       = ((None, Some e), 1%nat)).
Proof.
  intros (s & -> & Hs). unfold Unwrap.
  rewrite scan_stanzas_single. simpl. rewrite bool_decide_eq_true_2 by done. simpl.
  split.
  - intros e ->. done.
  - intros pass e -> ->. done.
Qed.

Lemma scan_stanzas_Some len rest err :
  scan_stanzas len rest = Some err →
  err = errorString "an scrypt recipient must be the only one".
Proof.
  induction rest as [|x rest IH]; simpl; [done|].
  destruct (_ && _); [|done]. by intros [= <-].
Qed.

(** Extra X7.  What [Unwrap] reports as [ErrIncorrectIdentity] (in the
    sense of [errors.Is]) comes from one of two places: the list holds no
    scrypt stanza and the callback was not called, or
    [age.NewScryptIdentity] itself returned such an error.  An
    [ErrIncorrectIdentity] of the scrypt identity's own [Unwrap] never
    reaches the caller, and any other result of it is passed on
    unchanged. *)
Theorem X7_Unwrap_incorrect_identity_origin
    (Passphrase : unit → string + error) (ScryptIdentity : Type)
    (NewScryptIdentity : string → ScryptIdentity + error)
    (ScryptIdentity_Unwrap : ScryptIdentity → list Stanza → Unwrapped)
    (stanzas : list Stanza) :
  (errors_Is_ErrIncorrectIdentity
     (Unwrap Passphrase ScryptIdentity NewScryptIdentity ScryptIdentity_Unwrap
        stanzas).1.2 = true →
   (¬ has_scrypt stanzas
    ∧ (Unwrap Passphrase ScryptIdentity NewScryptIdentity ScryptIdentity_Unwrap
         stanzas).2 = 0%nat)
   ∨ ∃ pass e,
       Passphrase tt = inl pass ∧ NewScryptIdentity pass = inr e
       ∧ is_ErrIncorrectIdentity e = true)
  ∧ (∀ pass ii,
       sole_scrypt stanzas →
       Passphrase tt = inl pass →
       NewScryptIdentity pass = inl ii →
       errors_Is_ErrIncorrectIdentity (ScryptIdentity_Unwrap ii stanzas).2 = false →
       (Unwrap Passphrase ScryptIdentity NewScryptIdentity ScryptIdentity_Unwrap
          stanzas).1
       = ScryptIdentity_Unwrap ii stanzas).
Proof.
  split.
  - unfold Unwrap.
    destruct (scan_stanzas (length stanzas) stanzas) as [err|] eqn:Hscan.
    { apply scan_stanzas_Some in Hscan as ->. done. }
    destruct (negb _ || negb _) eqn:Hguard.
    + intros _. left. split; [|done]. intros (x & Hx & Ht).
      destruct stanzas as [|s [|s' rest]].
      * by apply elem_of_nil in Hx.
      * apply list_elem_of_singleton in Hx. subst x. simpl in Hguard.
        by rewrite bool_decide_eq_true_2 in Hguard.
      * assert (Hm : scan_stanzas (length (s :: s' :: rest)) (s :: s' :: rest)
                     = Some (errorString "an scrypt recipient must be the only one")).
        { apply scan_stanzas_mixed; [simpl; lia|by exists x]. }
        by rewrite Hm in Hscan.
    + destruct (Passphrase tt) as [pass|e] eqn:Hp; [|done].
      destruct (NewScryptIdentity pass) as [ii|e] eqn:Hn.
      * destruct (ScryptIdentity_Unwrap ii stanzas) as [fk err].
        destruct (errors_Is_ErrIncorrectIdentity err) eqn:He; [done|].
        simpl. by rewrite He.
      * simpl. intros He. right. by exists pass, e.
  - intros pass ii (s & -> & Hs) Hp Hn Hnot. unfold Unwrap.
    rewrite scan_stanzas_single. simpl. rewrite bool_decide_eq_true_2 by done. simpl.
    rewrite Hp, Hn. destruct (ScryptIdentity_Unwrap ii [s]) as [fk err].
    simpl in Hnot. by rewrite Hnot.
Qed.

Lemma X5_Unwrap_succeeds_iff_witness :
  (Unwrap (λ _, inl "hunter2") unit (λ _, inl tt)
     (λ _ _, (Some [x00%byte; x01%byte], None))
     [mkStanza "scrypt" [] []]).1
  = (Some [x00%byte; x01%byte], None).
Proof.
  apply (X5_Unwrap_succeeds_iff (λ _, inl "hunter2") unit (λ _, inl tt)
           (λ _ _, (Some [x00%byte; x01%byte], None))
           [mkStanza "scrypt" [] []] (Some [x00%byte; x01%byte])).
  exists "hunter2", tt. split; [|repeat split; reflexivity].
  exists (mkStanza "scrypt" [] []). split; reflexivity.
Defined.

Lemma X6_Unwrap_failure_before_delegation_witness :
  Unwrap (λ _, inr ErrIncorrectIdentity) unit (λ _, inl tt)
    (λ _ _, (Some [x00%byte], None)) [mkStanza "scrypt" [] []]
  = ((None, Some (errorString
                    "could not read passphrase: incorrect identity for recipient block")),
     1%nat)
  ∧ Unwrap (λ _, inl "") unit (λ _, inr (errorString "passphrase can't be empty"))
      (λ _ _, (Some [x00%byte], None)) [mkStanza "scrypt" [] []]
    = ((None, Some (errorString "passphrase can't be empty")), 1%nat).
Proof.
  split.
  - destruct (X6_Unwrap_failure_before_delegation (λ _, inr ErrIncorrectIdentity) unit
                (λ _, inl tt) (λ _ _, (Some [x00%byte], None))
                [mkStanza "scrypt" [] []]) as [Hcallback _].
    { exists (mkStanza "scrypt" [] []). split; reflexivity. }
    destruct (Hcallback ErrIncorrectIdentity eq_refl) as [Heq _]. exact Heq.
  - destruct (X6_Unwrap_failure_before_delegation (λ _, inl "") unit
                (λ _, inr (errorString "passphrase can't be empty"))
                (λ _ _, (Some [x00%byte], None))
                [mkStanza "scrypt" [] []]) as [_ Hnew].
    { exists (mkStanza "scrypt" [] []). split; reflexivity. }
    apply (Hnew "" (errorString "passphrase can't be empty")); reflexivity.
Defined.

Lemma X7_Unwrap_incorrect_identity_origin_witness :
  (Unwrap (λ _, inl "hunter2") unit (λ _, inl tt)
     (λ _ _, (None, Some (errorString "scrypt: work factor too large")))
     [mkStanza "scrypt" [] []]).1
  = (None, Some (errorString "scrypt: work factor too large")).
Proof.
  destruct (X7_Unwrap_incorrect_identity_origin (λ _, inl "hunter2") unit (λ _, inl tt)
              (λ _ _, (None, Some (errorString "scrypt: work factor too large")))
              [mkStanza "scrypt" [] []]) as [_ Hpass].
  apply (Hpass "hunter2" tt); [|reflexivity..].
  exists (mkStanza "scrypt" [] []). split; reflexivity.
Defined.

(** ** The ways out of the handler *)

(** The answer of a request that got to the closing of the archive. *)
Lemma finish_response env b passcode bp bfp keys fg zw s :
  (∃ expiredAt url,
     (serve (finish env b passcode bp bfp keys fg zw) s).1 = JSON_Created expiredAt url)
  ∨ (serve (finish env b passcode bp bfp keys fg zw) s).1 = Panic_nil_dereference
  ∨ (∃ tail,
       (serve (finish env b passcode bp bfp keys fg zw) s).1
       = AbortWithStatusJSON 500 ("Unable to " +:+ tail)).
Proof.
  exec_tail; eauto.
  all: right; right; eexists; simpl; reflexivity.
Qed.

(** Every way the handler ends, in the order of the source. *)
Lemma BundleFileGroup_cases env c s :
  (∃ err, middleware_GetUserId c = inr err
          ∧ serve (BundleFileGroup env c) s
            = (AbortWithStatusJSON 403 "Unauthorized request", s))
  ∨ (∃ userId, middleware_GetUserId c = inl userId
       ∧ ShouldBindJSON env c = None
       ∧ serve (BundleFileGroup env c) s
         = (AbortWithStatusJSON 400 "Invalid body request", s))
  ∨ (∃ userId b err, middleware_GetUserId c = inl userId
       ∧ ShouldBindJSON env c = Some b
       ∧ bcrypt_GenerateFromPassword env (BundleFileGroupParam.Passcode b) = inr err
       ∧ serve (BundleFileGroup env c) s
         = (AbortWithStatusJSON 400 "Unable to process password", s))
  ∨ (∃ userId b passcode, middleware_GetUserId c = inl userId
       ∧ ShouldBindJSON env c = Some b
       ∧ bcrypt_GenerateFromPassword env (BundleFileGroupParam.Passcode b) = inl passcode
       ∧ ((db_First_FileGroup (BundleFileGroupParam.FileGroupId b) userId (world s) = None
           ∧ serve (BundleFileGroup env c) s
             = (AbortWithStatusJSON 500 "Invalid file group", s))
          ∨ ∃ fg,
              db_First_FileGroup (BundleFileGroupParam.FileGroupId b) userId (world s)
              = Some fg
              ∧ ((db_Find_FileItems (FileGroup.ID fg) (world s) = []
                  ∧ serve (BundleFileGroup env c) s
                    = (AbortWithStatusJSON 500 "Empty file group", s))
                 ∨ (db_Find_FileItems (FileGroup.ID fg) (world s) ≠ []
                    ∧ ((∃ err, os_Create_err env (bundle_path env fg) = Some err
                          ∧ serve (BundleFileGroup env c) s
                            = (AbortWithStatusJSON 500
                                 ("Unable to bundle files:" +:+ Error err), s))
                       ∨ (os_Create_err env (bundle_path env fg) = None
                          ∧ ∃ zw d' removed,
                              removed ⊆ map (member_path (dirpaths_upload env))
                                          (db_Find_FileItems (FileGroup.ID fg) (world s))
                              ∧ (∀ p, p ∉ removed →
                                   d' !! p
                                   = <[bundle_path env fg := Plain []]> (disk (world s)) !! p)
                              ∧ serve (BundleFileGroup env c) s =
                                  serve (finish env b passcode (dirpaths_bundle env)
                                           (bundle_path env fg)
                                           (resolve_recipients userId b fg (world s)).1
                                           (resolve_recipients userId b fg (world s)).2 zw)
                                    (mkSt (set_disk d' (world s))
                                       (log s ++ OsCreate (bundle_path env fg)
                                          :: map OsRemove removed)))))))).
Proof.
  unfold BundleFileGroup, prologue, fetchGroup.
  destruct (middleware_GetUserId c) as [userId|] eqn:Hu; [|left; by eauto].
  right.
  destruct (ShouldBindJSON env c) as [b|] eqn:Hb; [|left; by eauto].
  right.
  destruct (bcrypt_GenerateFromPassword env _) as [passcode|] eqn:Hp; [|left; by eauto 10].
  right. exists userId, b, passcode. repeat (split; [done|]).
  unfold serve, bind, ret, read, abort. simpl.
  destruct (db_First_FileGroup _ _ _) as [fg|] eqn:Hfg; [|left; by eauto].
  right. exists fg. split; [done|].
  unfold bundleFetched, bind, read, abort, os_Create. simpl.
  destruct (length _ =? 0)%nat eqn:Hlen.
  { left. apply Nat.eqb_eq, nil_length_inv in Hlen. by eauto. }
  right. split; [intros Hnil; by rewrite Hnil in Hlen|].
  destruct (os_Create_err env _) eqn:Hc; [left; by eauto|]. simpl.
  right. split; [done|].
  assert (Hres : ∀ d, resolve_recipients userId b fg (set_disk d (world s))
                     = resolve_recipients userId b fg (world s)) by done.
  rewrite Hres.
  destruct (resolve_recipients userId b fg (world s)) as [keys fg'] eqn:Hr. simpl.
  match goal with
  | |- context [archive_items ?e ?u ?p ?i ?z ?st] =>
      destruct (archive_items_effect e u p i z st)
        as (zw' & d' & removed & Heq & Hsub & Hd); rewrite Heq
  end.
  exists zw', d', removed.
  repeat (split; [done|]).
  unfold emit, on_world, set_disk. simpl. rewrite <- app_assoc. simpl.
  done.
Qed.

(** Extra X8.  The checks before the store is consulted.  A request
    without an authenticated user is answered 403 "Unauthorized request"
    whatever its body; for an authenticated user a body that is missing, or
    whose passcode has fewer than 6 characters, or whose download password
    is given with fewer than 6 characters, is answered 400 "Invalid body
    request".  In each case nothing is changed and nothing logged. *)
Theorem X8_rejected_before_fetch env c w :
  (∀ err, middleware_GetUserId c = inr err →
     handle env c w = (AbortWithStatusJSON 403 "Unauthorized request", mkSt w []))
  ∧ (∀ userId, middleware_GetUserId c = inl userId →
       match request_body c with
       | None => True
       | Some b =>
           (String.length (BundleFileGroupParam.Passcode b) < 6)%nat
           ∨ (0 < String.length (BundleFileGroupParam.DownloadPassword b) < 6)%nat
       end →
       handle env c w = (AbortWithStatusJSON 400 "Invalid body request", mkSt w [])).
Proof.
  split.
  - intros err Hu. unfold handle, serve, BundleFileGroup, prologue, bind, abort.
    by rewrite Hu.
  - intros userId Hu Hbody.
    assert (Hbind : ShouldBindJSON env c = None).
    { unfold ShouldBindJSON. destruct (request_body c) as [b|]; [|done].
      assert (binding_ok env b = false) as ->; [|done].
      unfold binding_ok. destruct Hbody as [Hp|[Hd0 Hd6]].
      - rewrite (proj2 (Nat.leb_gt 6 _) Hp). by rewrite !andb_false_r.
      - rewrite (proj2 (Nat.leb_gt 6 _) Hd6).
        rewrite (proj2 (Nat.eqb_neq _ 0)) by lia. by rewrite !andb_false_r. }
    unfold handle, serve, BundleFileGroup, prologue, bind, abort.
    by rewrite Hu, Hbind.
Qed.

Lemma db_First_FileGroup_None id userId w :
  db_First_FileGroup id userId w = None
  ↔ ∀ g, g ∈ file_groups w → FileGroup.ID g = id →
         FileGroup.UserId g ≠ userId ∨ FileGroup.BundledAt g ≠ None.
Proof.
  unfold db_First_FileGroup. split.
  - intros Hnone g Hin Hid.
    pose proof (find_none _ _ Hnone g (proj1 (list_elem_of_In _ _) Hin)) as Hg.
    unfold eligible in Hg. rewrite (bool_decide_eq_true_2 _ Hid) in Hg. simpl in Hg.
    destruct (decide (FileGroup.UserId g = userId)) as [Hu|Hu]; [|by left].
    rewrite (bool_decide_eq_true_2 _ Hu) in Hg. simpl in Hg.
    right. by apply bool_decide_eq_false in Hg.
  - intros Hall. destruct (find _ _) as [g|] eqn:Hfind; [|done].
    apply find_some in Hfind as [Hin Hg]. apply list_elem_of_In in Hin.
    unfold eligible in Hg. apply andb_prop in Hg as [Hg H3].
    apply andb_prop in Hg as [H1 H2].
    apply bool_decide_eq_true in H1, H2, H3.
    destruct (Hall g Hin H1); done.
Qed.

(** Extra X9.  For an authenticated request with a valid body, the store
    answering the fetch, the answer is 500 "Invalid file group" exactly when
    the store has no row with the requested id that belongs to the requester
    and is not yet bundled: a missing group, a group of another user and a
    group already bundled are told apart by nothing.  The request then
    changes nothing. *)
Theorem X9_invalid_group_iff env c w userId b passcode :
  middleware_GetUserId c = inl userId →
  ShouldBindJSON env c = Some b →
  bcrypt_GenerateFromPassword env (BundleFileGroupParam.Passcode b) = inl passcode →
  ((handle env c w).1 = AbortWithStatusJSON 500 "Invalid file group"
   ↔ ∀ g, g ∈ file_groups w →
          FileGroup.ID g = BundleFileGroupParam.FileGroupId b →
          FileGroup.UserId g ≠ userId ∨ FileGroup.BundledAt g ≠ None)
  ∧ ((handle env c w).1 = AbortWithStatusJSON 500 "Invalid file group" →
     (handle env c w).2 = mkSt w []).
Proof.
  intros Hu Hb Hp. rewrite <- db_First_FileGroup_None. unfold handle.
  destruct (BundleFileGroup_cases env c (mkSt w []))
    as [(err & Hu' & Heq)|[(u & Hu' & Hb' & Heq)|[(u & b' & err & Hu' & Hb' & Hp' & Heq)|
        (u & b' & pc & Hu' & Hb' & Hp' & Hrest)]]];
    try (rewrite Heq; simpl; congruence).
  assert (u = userId) as -> by congruence.
  assert (b' = b) as -> by congruence. simpl in Hrest.
  destruct Hrest as [[Hnone Heq]|(fg & Hfg & [[Hitems Heq]|[Hitems
                       [(err & Hc & Heq)|(Hc & zw & d' & removed & _ & _ & Heq)]]])];
    rewrite Heq; simpl.
  - done.
  - rewrite Hfg. split; [split; done|done].
  - rewrite Hfg. split; [split; done|done].
  - rewrite Hfg.
    match goal with
    | |- context [serve (finish ?e ?b ?pc ?bp ?bfp ?k ?fg ?zw) ?s] =>
        destruct (finish_response e b pc bp bfp k fg zw s)
          as [(ex & url & Hr)|[Hr|(tail & Hr)]]; rewrite Hr
    end; (split; [split; done|done]).
Qed.

(** Extra X10.  For a request that found its group, the store answering
    the query for its members, the answer is 500 "Empty file group" exactly
    when the store has no file item of that group; the request then changes
    nothing, and in particular creates no archive file. *)
Theorem X10_empty_group_iff env c w userId b passcode fg :
  middleware_GetUserId c = inl userId →
  ShouldBindJSON env c = Some b →
  bcrypt_GenerateFromPassword env (BundleFileGroupParam.Passcode b) = inl passcode →
  db_First_FileGroup (BundleFileGroupParam.FileGroupId b) userId w = Some fg →
  ((handle env c w).1 = AbortWithStatusJSON 500 "Empty file group"
   ↔ ∀ item, item ∈ file_items w →
             FileItem.FileGroupId item ≠ BundleFileGroupParam.FileGroupId b)
  ∧ ((handle env c w).1 = AbortWithStatusJSON 500 "Empty file group" →
     (handle env c w).2 = mkSt w []).
Proof.
  intros Hu Hb Hp Hfg.
  pose proof (db_First_FileGroup_ID _ _ _ _ Hfg) as (Hid & _ & _).
  assert (Hempty : db_Find_FileItems (FileGroup.ID fg) w = []
                   ↔ ∀ item, item ∈ file_items w →
                             FileItem.FileGroupId item ≠ BundleFileGroupParam.FileGroupId b).
  { rewrite Hid. unfold db_Find_FileItems. split.
    - intros Hnil item Hin Hitem.
      assert (Hmem : In item (List.filter
                (λ item, bool_decide (FileItem.FileGroupId item
                                      = BundleFileGroupParam.FileGroupId b))
                (file_items w))).
      { apply filter_In. split; [by apply list_elem_of_In|by apply bool_decide_eq_true_2]. }
      by rewrite Hnil in Hmem.
    - intros Hall. destruct (List.filter _ _) as [|item rest] eqn:Hf; [done|].
      assert (Hmem : In item (List.filter
                (λ item, bool_decide (FileItem.FileGroupId item
                                      = BundleFileGroupParam.FileGroupId b))
                (file_items w))) by (rewrite Hf; by left).
      apply filter_In in Hmem as [Hin Hitem]. apply bool_decide_eq_true in Hitem.
      by destruct (Hall item (proj2 (list_elem_of_In _ _) Hin)). }
  rewrite <- Hempty. unfold handle.
  destruct (BundleFileGroup_cases env c (mkSt w []))
    as [(err & Hu' & Heq)|[(u & Hu' & Hb' & Heq)|[(u & b' & err & Hu' & Hb' & Hp' & Heq)|
        (u & b' & pc & Hu' & Hb' & Hp' & Hrest)]]];
    try (rewrite Heq; simpl; congruence).
  assert (u = userId) as -> by congruence.
  assert (b' = b) as -> by congruence. simpl in Hrest.
  destruct Hrest as [[Hnone Heq]|(fg' & Hfg' & Hrest)]; [congruence|].
  assert (fg' = fg) as -> by congruence.
  destruct Hrest as [[Hitems Heq]|[Hitems
                       [(err & Hc & Heq)|(Hc & zw & d' & removed & _ & _ & Heq)]]];
    rewrite Heq; simpl.
  - done.
  - split; [split; done|done].
  - match goal with
    | |- context [serve (finish ?e ?b ?pc ?bp ?bfp ?k ?fg ?zw) ?s] =>
        destruct (finish_response e b pc bp bfp k fg zw s)
          as [(ex & url & Hr)|[Hr|(tail & Hr)]]; rewrite Hr
    end; (split; [split; done|done]).
Qed.

(** ** What is saved *)

Lemma finish_saved_fields env b passcode bp bfp keys fg zw s g ok :
  DbSave g ok ∈ log (snd (serve (finish env b passcode bp bfp keys fg zw) s)) →
  DbSave g ok ∉ log s →
  FileGroup.ID g = FileGroup.ID fg
  ∧ FileGroup.UserId g = FileGroup.UserId fg
  ∧ FileGroup.BundledAt g = Some (time_Now env)
  ∧ FileGroup.ArchivePasscode g = passcode
  ∧ FileGroup.ExpiredAt g
    = Some (match time_Parse env (BundleFileGroupParam.ExpiredAt b) with
            | inl expDate => expDate
            | inr _ => (time_Now env + 30 * 24 * 3600)%Z
            end)
  ∧ FileGroup.SharedToUserIds g = FileGroup.SharedToUserIds fg.
Proof.
  intros Hin Hnot. unfold_tail.
  repeat (case_match; simplify_eq; simpl in *; try congruence).
  all: try solve [exfalso; inlog].
  all: assert (Hg : ∃ k, g = FileGroup.set_bundled passcode (time_Now env) _
                             (FileGroup.set_FileKey k fg))
         by (inlog; simplify_eq; eexists; reflexivity).
  all: destruct Hg as [k ->]; done.
Qed.

Lemma finish_created_expiry env b passcode bp bfp keys fg zw s expiredAt url :
  fst (serve (finish env b passcode bp bfp keys fg zw) s) = JSON_Created expiredAt url →
  expiredAt
  = Some (match time_Parse env (BundleFileGroupParam.ExpiredAt b) with
          | inl expDate => expDate
          | inr _ => (time_Now env + 30 * 24 * 3600)%Z
          end).
Proof.
  exec_tail; intros Hr; try done.
  all: by simplify_eq.
Qed.

Lemma resolve_recipients_fields userId b fg w :
  FileGroup.UserId (resolve_recipients userId b fg w).2 = FileGroup.UserId fg
  ∧ FileGroup.SharedToUserIds (resolve_recipients userId b fg w).2
    = FileGroup.SharedToUserIds fg
      ++ (if (0 <? length (BundleFileGroupParam.UserIds b))%nat
          then map UserKey.UserId
                 (db_Find_UserKeys (BundleFileGroupParam.UserIds b ++ [userId]) w)
          else []).
Proof.
  unfold resolve_recipients. destruct (0 <? length _)%nat; [|by rewrite app_nil_r].
  destruct (db_Find_UserKeys _ w) as [|k ks] eqn:Hk; [by rewrite app_nil_r|].
  cbn [length Nat.ltb Nat.leb]. by rewrite foldl_add_recipient.
Qed.

(** Extra X11.  What the handler hands to [db.Save], applied or not: the
    row of the requested group, still the requester's, with [BundledAt] the
    current time, [ArchivePasscode] the bcrypt hash of the request's
    passcode, and [ExpiredAt] the parsed expiry of the request, or thirty
    days from now when that string does not parse.  A 201 answer echoes the
    same expiry. *)
Theorem X11_saved_group env c w userId b passcode :
  middleware_GetUserId c = inl userId →
  request_body c = Some b →
  bcrypt_GenerateFromPassword env (BundleFileGroupParam.Passcode b) = inl passcode →
  (∀ g ok, DbSave g ok ∈ log (handle env c w).2 →
     FileGroup.ID g = BundleFileGroupParam.FileGroupId b
     ∧ FileGroup.UserId g = userId
     ∧ FileGroup.BundledAt g = Some (time_Now env)
     ∧ FileGroup.ArchivePasscode g = passcode
     ∧ FileGroup.ExpiredAt g
       = Some (match time_Parse env (BundleFileGroupParam.ExpiredAt b) with
               | inl expDate => expDate
               | inr _ => (time_Now env + 30 * 24 * 3600)%Z
               end))
  ∧ (∀ expiredAt url, (handle env c w).1 = JSON_Created expiredAt url →
       expiredAt
       = Some (match time_Parse env (BundleFileGroupParam.ExpiredAt b) with
               | inl expDate => expDate
               | inr _ => (time_Now env + 30 * 24 * 3600)%Z
               end)).
Proof.
  intros Hu Hb Hp. unfold handle.
  destruct (BundleFileGroup_front env c (mkSt w []))
    as [(status & msg & Heq)|(u & b' & pc & fg & zw & d' & removed &
                               Hu' & Hb' & Hpc & Hfg & Hsub & Hd & Heq)];
    rewrite Heq.
  { split; [intros g ok Hin; by apply elem_of_nil in Hin|done]. }
  apply ShouldBindJSON_body in Hb'.
  assert (u = userId) as -> by congruence.
  assert (b' = b) as -> by congruence.
  assert (pc = passcode) as -> by congruence.
  simpl in Hfg. apply db_First_FileGroup_ID in Hfg as (Hid & Howner & _).
  split.
  - intros g ok Hin.
    apply finish_saved_fields in Hin as (Hg1 & Hg2 & Hg3 & Hg4 & Hg5 & _);
      [|apply front_log_no_save].
    rewrite resolve_recipients_ID in Hg1.
    rewrite (proj1 (resolve_recipients_fields _ _ _ _)) in Hg2.
    repeat split; congruence.
  - intros expiredAt url Hr. by apply finish_created_expiry in Hr.
Qed.

(** Extra X12.  The recipient list that is saved.  With recipient ids in
    the request, the saved [SharedToUserIds] is the list the row had,
    followed by the user ids of the keys found for the requested ids and
    the requester, in the order of the key table: an id without a registered
    key is not recorded.  Without recipient ids the list is saved as it
    was. *)
Theorem X12_saved_recipient_list env c w userId b fg g ok :
  middleware_GetUserId c = inl userId →
  request_body c = Some b →
  db_First_FileGroup (BundleFileGroupParam.FileGroupId b) userId w = Some fg →
  DbSave g ok ∈ log (handle env c w).2 →
  FileGroup.SharedToUserIds g
  = FileGroup.SharedToUserIds fg
    ++ match BundleFileGroupParam.UserIds b with
       | [] => []
       | _ :: _ =>
           map UserKey.UserId
             (List.filter
                (λ key, bool_decide (UserKey.UserId key
                                     ∈ BundleFileGroupParam.UserIds b ++ [userId]))
                (user_keys w))
       end.
Proof.
  intros Hu Hb Hfg Hin. unfold handle in Hin.
  destruct (BundleFileGroup_front env c (mkSt w []))
    as [(status & msg & Heq)|(u & b' & pc & fg' & zw & d' & removed &
                               Hu' & Hb' & Hpc & Hfg' & Hsub & Hd & Heq)];
    rewrite Heq in Hin.
  { by apply elem_of_nil in Hin. }
  apply ShouldBindJSON_body in Hb'.
  assert (u = userId) as -> by congruence.
  assert (b' = b) as -> by congruence.
  simpl in Hfg'. assert (fg' = fg) as -> by congruence.
  apply finish_saved_fields in Hin as (_ & _ & _ & _ & _ & Hshared);
    [|apply front_log_no_save].
  rewrite Hshared, (proj2 (resolve_recipients_fields _ _ _ _)).
  by destruct (BundleFileGroupParam.UserIds b).
Qed.

(** ** What the handler leaves alone *)

Lemma finish_tables env b passcode bp bfp keys fg zw s :
  let s' := snd (serve (finish env b passcode bp bfp keys fg zw) s) in
  file_items (world s') = file_items (world s)
  ∧ user_keys (world s') = user_keys (world s)
  ∧ bucket (world s') = bucket (world s)
  ∧ (file_groups (world s') = file_groups (world s)
     ∨ ∃ g, FileGroup.ID g = FileGroup.ID fg
            ∧ file_groups (world s') = upsert g (file_groups (world s)))
  ∧ (short_links (world s') = short_links (world s)
     ∨ ∃ code pin,
         short_links (world s')
         = short_links (world s) ++ [ShortLink.mk code (FileGroup.ID fg) pin]).
Proof.
  exec_tail.
  all: repeat (split; [done|]).
  all: split; [first [by left | right; eexists; split; [|reflexivity]; done]|].
  all: first [by left | right; eexists _, _; reflexivity].
Qed.

Lemma upsert_present g rows r :
  r ∈ rows → FileGroup.ID r = FileGroup.ID g →
  upsert g rows
  = map (λ r, if bool_decide (FileGroup.ID r = FileGroup.ID g) then g else r) rows.
Proof.
  intros Hin Hid. unfold upsert.
  assert (existsb (λ r, bool_decide (FileGroup.ID r = FileGroup.ID g)) rows = true) as ->;
    [|done].
  apply existsb_exists. exists r. split; [by apply list_elem_of_In|].
  by apply bool_decide_eq_true_2.
Qed.

(** Extra X13.  Whatever the request and however it ends, the handler
    leaves the tables of file items and of user keys and the bucket as they
    were; the table of file groups keeps its length and every row whose id
    is not the requested one stays where it was; and at most one short link
    is added, bound to the requested group. *)
Theorem X13_tables_frame env c w :
  let s' := (handle env c w).2 in
  file_items (world s') = file_items w
  ∧ user_keys (world s') = user_keys w
  ∧ bucket (world s') = bucket w
  ∧ length (file_groups (world s')) = length (file_groups w)
  ∧ (∀ i r, file_groups w !! i = Some r →
            (∀ b, request_body c = Some b →
                  FileGroup.ID r ≠ BundleFileGroupParam.FileGroupId b) →
            file_groups (world s') !! i = Some r)
  ∧ (short_links (world s') = short_links w
     ∨ ∃ b code pin,
         request_body c = Some b
         ∧ short_links (world s')
           = short_links w
             ++ [ShortLink.mk code (BundleFileGroupParam.FileGroupId b) pin]).
Proof.
  unfold handle.
  destruct (BundleFileGroup_front env c (mkSt w []))
    as [(status & msg & Heq)|(u & b & pc & fg & zw & d' & removed &
                               Hu & Hb & Hpc & Hfg & Hsub & Hd & Heq)];
    rewrite Heq; simpl.
  { repeat (split; [done|]). by left. }
  apply ShouldBindJSON_body in Hb. simpl in Hfg.
  pose proof (db_First_FileGroup_ID _ _ _ _ Hfg) as (Hid & _ & _).
  apply find_some in Hfg as [Hmem _]. apply list_elem_of_In in Hmem.
  match goal with
  | |- context [serve (finish ?e ?b ?pc ?bp ?bfp ?k ?fg ?zw) ?s] =>
      destruct (finish_tables e b pc bp bfp k fg zw s)
        as (Hitems & Hkeys & Hbucket & Hgroups & Hlinks)
  end.
  simpl in Hitems, Hkeys, Hbucket, Hgroups, Hlinks.
  rewrite resolve_recipients_ID in Hgroups, Hlinks.
  repeat (split; [done|]).
  split; [|split].
  - destruct Hgroups as [->|(g & Hg & ->)]; [done|].
    rewrite (upsert_present g _ fg) by congruence. apply length_map.
  - intros i r Hi Hother. destruct Hgroups as [->|(g & Hg & ->)]; [done|].
    rewrite (upsert_present g _ fg) by congruence.
    rewrite list_lookup_fmap, Hi. simpl.
    rewrite bool_decide_eq_false_2; [done|].
    rewrite Hg, Hid. by apply Hother.
  - destruct Hlinks as [->|(code & pin & ->)]; [by left|].
    right. exists b, code, pin. by rewrite Hid.
Qed.

Lemma finish_disk env b passcode bp bfp keys fg zw s p :
  p ≠ bfp →
  (∀ src dir ks out,
     EncryptFileCall src dir ks (Some out)
       ∈ log (snd (serve (finish env b passcode bp bfp keys fg zw) s)) →
     p ≠ out) →
  disk (world (snd (serve (finish env b passcode bp bfp keys fg zw) s))) !! p
  = disk (world s) !! p.
Proof.
  intros Hp. exec_tail; intros Hout.
  all: rewrite ?lookup_delete_ne, ?lookup_insert_ne, ?lookup_alter_ne; try done.
  all: try by apply not_eq_sym.
  all: apply not_eq_sym; eapply Hout; find_in.
Qed.

(** Extra X14.  The handler touches three kinds of local files only: the
    archive of the requested group, the stored files of that group's
    members, and what [EncryptFile] wrote.  Every other path, the uploads of
    other groups among them, holds after the request what it held
    before. *)
Theorem X14_disk_frame env c w b p :
  request_body c = Some b →
  p ≠ filepath_Join (dirpaths_bundle env)
        (BundleFileGroupParam.FileGroupId b +:+ ".zip") →
  p ∉ map (member_path (dirpaths_upload env))
        (db_Find_FileItems (BundleFileGroupParam.FileGroupId b) w) →
  (∀ src dir keys out,
     EncryptFileCall src dir keys (Some out) ∈ log (handle env c w).2 → p ≠ out) →
  disk (world (handle env c w).2) !! p = disk w !! p.
Proof.
  intros Hb Harchive Hmember. unfold handle.
  destruct (BundleFileGroup_front env c (mkSt w []))
    as [(status & msg & Heq)|(u & b' & pc & fg & zw & d' & removed &
                               Hu & Hb' & Hpc & Hfg & Hsub & Hd & Heq)];
    rewrite Heq; [done|].
  intros Hout.
  apply ShouldBindJSON_body in Hb'. assert (b' = b) as -> by congruence.
  simpl in Hfg, Hsub, Hd.
  apply db_First_FileGroup_ID in Hfg as (Hid & _ & _).
  unfold bundle_path in *. rewrite Hid in *.
  rewrite finish_disk by done. simpl.
  rewrite Hd by (intros Hin; by apply Hmember, Hsub).
  by apply lookup_insert_ne, not_eq_sym.
Qed.

(** ** After the save *)

Lemma finish_applied env b passcode bp bfp keys fg zw s g :
  DbSave g true ∈ log (snd (serve (finish env b passcode bp bfp keys fg zw) s)) →
  (∀ g' ok, DbSave g' ok ∉ log s) →
  (∀ filePath g', Go filePath g' ∉ log s) →
  let r := serve (finish env b passcode bp bfp keys fg zw) s in
  file_groups (world r.2) = upsert g (file_groups (world s))
  ∧ FileGroup.BundledAt g = Some (time_Now env)
  ∧ Go (FileGroup.FileKey g) g ∈ log r.2
  ∧ (∀ filePath g', Go filePath g' ∈ log r.2 →
       g' = g ∧ filePath = FileGroup.FileKey g)
  ∧ ((∃ expiredAt url, r.1 = JSON_Created expiredAt url)
     ∨ (∃ msg, r.1 = AbortWithStatusJSON 500 msg
               ∧ short_links (world r.2) = short_links (world s))).
Proof.
  intros Hin Hnosave Hnogo. unfold_tail.
  repeat (case_match; simplify_eq; simpl in *; try congruence).
  all: try solve [exfalso; inlog; by eapply Hnosave].
  all: match type of Hin with
       | _ ∈ ?l =>
           match l with
           | context [DbSave ?G true] =>
               assert (g = G) as ->
                 by (inlog; try (exfalso; by eapply Hnosave); by simplify_eq)
           end
       end.
  all: clear Hin.
  all: split; [done|]; split; [done|]; simpl; split; [find_in|].
  all: split;
    [intros filePath g' Hgo; inlog; try (exfalso; by eapply Hnogo); by simplify_eq|].
  all: first [left; by eauto | right; by eauto].
Qed.

Lemma front_log_no_go removed p filePath g :
  Go filePath g ∉ OsCreate p :: map OsRemove removed.
Proof.
  intros Hin. apply elem_of_cons in Hin as [|Hin]; [done|].
  apply list_elem_of_fmap in Hin as (? & ? & ?). done.
Qed.

(** Extra X15.  An applied save is final.  When the store applied the
    save of a request, the group is marked bundled from then on and the
    upload goroutine was started, once, with the saved row and its locator,
    whatever happens next: the request is answered 201, or, when hashing the
    download password or creating the short link fails, 500 with no short
    link made.  In either case the same request sent again is answered 500
    "Invalid file group". *)
Theorem X15_applied_save_is_final env c w g :
  DbSave g true ∈ log (handle env c w).2 →
  bundled_in (FileGroup.ID g) (world (handle env c w).2)
  ∧ Go (FileGroup.FileKey g) g ∈ log (handle env c w).2
  ∧ (∀ filePath g', Go filePath g' ∈ log (handle env c w).2 →
       g' = g ∧ filePath = FileGroup.FileKey g)
  ∧ ((∃ expiredAt url, (handle env c w).1 = JSON_Created expiredAt url)
     ∨ (∃ msg, (handle env c w).1 = AbortWithStatusJSON 500 msg
               ∧ short_links (world (handle env c w).2) = short_links w))
  ∧ serve (BundleFileGroup env c) (handle env c w).2
    = (AbortWithStatusJSON 500 "Invalid file group", (handle env c w).2).
Proof.
  unfold handle.
  destruct (BundleFileGroup_front env c (mkSt w []))
    as [(status & msg & Heq)|(u & b & pc & fg & zw & d' & removed &
                               Hu & Hb & Hpc & Hfg & Hsub & Hd & Heq)];
    rewrite Heq; [by intros Hin%elem_of_nil|].
  simpl.
  match goal with
  | |- context [serve (finish ?e ?b ?pc ?bp ?bfp ?k ?fg ?zw) ?s] =>
      pose proof (finish_applied e b pc bp bfp k fg zw s g) as Happlied;
      pose proof (finish_saved_ID e b pc bp bfp k fg zw s g true) as Hsaved;
      set (r := serve (finish e b pc bp bfp k fg zw) s) in *
  end.
  intros Hin.
  destruct (Hsaved Hin) as [Hold|Hid]; [by apply front_log_no_save in Hold|].
  rewrite resolve_recipients_ID in Hid. simpl in Hfg.
  apply db_First_FileGroup_ID in Hfg as (Hfg & _ & _).
  destruct Happlied as (Hrows & Hat & Hgo & Hone & Hresp);
    [done|intros; apply front_log_no_save|intros; apply front_log_no_go|].
  simpl in Hrows.
  assert (Hbundled : bundled_in (FileGroup.ID g) (world r.2)).
  { intros x Hx Hxid. rewrite Hrows in Hx. apply upsert_elem in Hx; [|done].
    subst x. by rewrite Hat. }
  repeat (split; [done|]).
  eapply rejected_invalid_group; [done..|].
  apply bundled_in_rejected. by rewrite <- Hfg, <- Hid.
Qed.

(** ** The archive the handler leaves *)

Lemma BundleFileGroup_front_distinct env c w userId b passcode fg :
  middleware_GetUserId c = inl userId →
  ShouldBindJSON env c = Some b →
  bcrypt_GenerateFromPassword env (BundleFileGroupParam.Passcode b) = inl passcode →
  db_First_FileGroup (BundleFileGroupParam.FileGroupId b) userId w = Some fg →
  db_Find_FileItems (FileGroup.ID fg) w ≠ [] →
  os_Create_err env (bundle_path env fg) = None →
  NoDup (map (member_path (dirpaths_upload env)) (db_Find_FileItems (FileGroup.ID fg) w)) →
  bundle_path env fg
    ∉ map (member_path (dirpaths_upload env)) (db_Find_FileItems (FileGroup.ID fg) w) →
  ∃ s1,
    handle env c w
    = serve (finish env b passcode (dirpaths_bundle env) (bundle_path env fg)
               (resolve_recipients userId b fg w).1
               (resolve_recipients userId b fg w).2
               (flat_map (archived env (dirpaths_upload env)
                            (BundleFileGroupParam.Passcode b) (disk w))
                  (db_Find_FileItems (FileGroup.ID fg) w))) s1
    ∧ disk (world s1) !! bundle_path env fg = Some (Plain [])
    ∧ (∀ item, item ∈ db_Find_FileItems (FileGroup.ID fg) w →
         disk (world s1) !! member_path (dirpaths_upload env) item
         = if is_incorporated env (dirpaths_upload env) (disk w) item
           then None
           else disk w !! member_path (dirpaths_upload env) item)
    ∧ ∃ removed, log s1 = OsCreate (bundle_path env fg) :: map OsRemove removed.
Proof.
  intros Hu Hb Hp Hfg Hitems Hc Hnd Hfresh.
  unfold handle, BundleFileGroup, prologue, fetchGroup.
  rewrite Hu, Hb, Hp.
  unfold serve, bind, ret, read, abort. simpl. rewrite Hfg.
  unfold bundleFetched, bind, read, abort, os_Create. simpl.
  destruct (length _ =? 0)%nat eqn:Hlen.
  { apply Nat.eqb_eq, nil_length_inv in Hlen. done. }
  rewrite Hc. simpl.
  assert (Hres : ∀ d, resolve_recipients userId b fg (set_disk d w)
                     = resolve_recipients userId b fg w) by done.
  rewrite Hres.
  destruct (resolve_recipients userId b fg w) as [keys fg'] eqn:Hr. simpl.
  set (items := db_Find_FileItems (FileGroup.ID fg) w) in *.
  set (s0 := emit (OsCreate (bundle_path env fg))
               (on_world (λ w0, set_disk (<[bundle_path env fg:=Plain []]> (disk w0)) w0)
                  (mkSt w []))).
  destruct (archive_items_fate env (dirpaths_upload env)
              (BundleFileGroupParam.Passcode b) items [] s0 Hnd)
    as (s1 & Heq & Hgone & Hkept).
  assert (Hlog : ∃ removed, log s1 = OsCreate (bundle_path env fg) :: map OsRemove removed).
  { destruct (archive_items_effect env (dirpaths_upload env)
                (BundleFileGroupParam.Passcode b) items [] s0)
      as (zw' & d' & removed & Heq' & _ & _).
    rewrite Heq in Heq'. exists removed. by simplify_eq. }
  rewrite Heq. simpl.
  assert (Hmember : ∀ item, item ∈ items →
            disk (world s0) !! member_path (dirpaths_upload env) item
            = disk w !! member_path (dirpaths_upload env) item).
  { intros item Hitem. subst s0. simpl. apply lookup_insert_ne.
    intros Hsame. apply Hfresh. rewrite Hsame. by apply list_elem_of_fmap_2. }
  assert (Hinc : ∀ item, item ∈ items →
            is_incorporated env (dirpaths_upload env) (disk (world s0)) item
            = is_incorporated env (dirpaths_upload env) (disk w) item).
  { intros item Hitem. unfold is_incorporated.
    by rewrite (fate_agree _ _ _ _ _ (Hmember item Hitem)). }
  exists s1. split; [|split; [|split; [|done]]].
  - rewrite (flat_map_agree
               (archived env (dirpaths_upload env) (BundleFileGroupParam.Passcode b)
                  (disk (world s0)))
               (archived env (dirpaths_upload env) (BundleFileGroupParam.Passcode b)
                  (disk w))); [done|].
    intros item Hitem. by apply archived_agree, Hmember.
  - rewrite Hkept.
    + subst s0. simpl. apply lookup_insert_eq.
    + intros item Hitem _ Hsame. apply Hfresh. rewrite <- Hsame.
      by apply list_elem_of_fmap_2.
  - intros item Hitem.
    destruct (is_incorporated env (dirpaths_upload env) (disk w) item) eqn:Hi.
    + apply Hgone; [done|]. by rewrite Hinc.
    + rewrite Hkept; [by apply Hmember|].
      intros it Hit Hitinc Hsame.
      rewrite (NoDup_map_eq _ _ _ _ Hnd Hit Hitem Hsame) in Hitinc.
      rewrite Hinc in Hitinc by done. congruence.
Qed.

(** Extra X16.  The handler end to end, for a request without recipient
    ids whose group has members stored under distinct names, none of them at
    the path of the archive, and whose archive file could be created.
    However the request ends after that, the file at
    [<bundle dir>/<group id>.zip] is the archive holding, in the order of
    the store, what each member left in the loop, every entry encrypted
    under the request's passcode itself (not under its hash), so that this
    passcode opens all of them; and the source of a member is gone exactly
    when it was incorporated, the others being as they were. *)
Theorem X16_archive_on_disk env c w userId b passcode fg :
  middleware_GetUserId c = inl userId →
  ShouldBindJSON env c = Some b →
  bcrypt_GenerateFromPassword env (BundleFileGroupParam.Passcode b) = inl passcode →
  db_First_FileGroup (BundleFileGroupParam.FileGroupId b) userId w = Some fg →
  BundleFileGroupParam.UserIds b = [] →
  db_Find_FileItems (FileGroup.ID fg) w ≠ [] →
  os_Create_err env (bundle_path env fg) = None →
  NoDup (map (member_path (dirpaths_upload env)) (db_Find_FileItems (FileGroup.ID fg) w)) →
  bundle_path env fg
    ∉ map (member_path (dirpaths_upload env)) (db_Find_FileItems (FileGroup.ID fg) w) →
  let archive :=
    flat_map (archived env (dirpaths_upload env) (BundleFileGroupParam.Passcode b)
                (disk w))
      (db_Find_FileItems (FileGroup.ID fg) w) in
  disk (world (handle env c w).2) !! bundle_path env fg = Some (ZipArchive archive)
  ∧ open_archive (BundleFileGroupParam.Passcode b) archive
    = map (λ e, (Name e, Data e)) archive
  ∧ (∀ item, item ∈ db_Find_FileItems (FileGroup.ID fg) w →
       disk (world (handle env c w).2) !! member_path (dirpaths_upload env) item
       = if is_incorporated env (dirpaths_upload env) (disk w) item
         then None
         else disk w !! member_path (dirpaths_upload env) item).
Proof.
  intros Hu Hb Hp Hfg Hnone Hitems Hc Hnd Hfresh archive.
  destruct (BundleFileGroup_front_distinct env c w userId b passcode fg)
    as (s1 & -> & Hbfp & Hmembers & _); [done..|].
  assert (Hk : (resolve_recipients userId b fg w).1 = []).
  { rewrite resolve_recipients_keys. by rewrite Hnone. }
  rewrite Hk. fold archive.
  match goal with
  | |- context [serve (finish ?e ?b ?pc ?bp ?bfp [] ?fg ?zw) ?s] =>
      destruct (finish_unwrapped e b pc bp bfp fg zw s) as [_ Hdisk]
  end.
  simpl in Hdisk. rewrite Hdisk.
  split; [|split].
  - by rewrite lookup_alter_eq, Hbfp.
  - apply open_archive_all. intros e He.
    apply list_elem_of_In, in_flat_map in He as (item & _ & He).
    apply list_elem_of_In in He. by apply archived_password in He as (? & _).
  - intros item Hitem. rewrite lookup_alter_ne; [by apply Hmembers|].
    intros Hsame. apply Hfresh. rewrite Hsame. by apply list_elem_of_fmap_2.
Qed.

(** ** From the handler to the object store *)

Lemma list_ascii_of_string_app s t :
  String.list_ascii_of_string (s +:+ t)
  = String.list_ascii_of_string s ++ String.list_ascii_of_string t.
Proof. induction s as [|a s IH]; simpl; [done|]. by rewrite IH. Qed.

Lemma drop_while_head {A} (p : A → bool) x l :
  p x = false → drop_while p (x :: l) = x :: l.
Proof. intros H. simpl. by rewrite H. Qed.

Lemma take_while_app {A} (p : A → bool) l x l' :
  (∀ a, a ∈ l → p a = true) → p x = false →
  take_while p (l ++ x :: l') = l.
Proof.
  induction l as [|a l IH]; intros Hl Hx; simpl.
  - by rewrite Hx.
  - rewrite (Hl a) by (by left). f_equal. apply IH; [|done].
    intros a' Ha'. apply Hl. by right.
Qed.

Lemma base_of_joined (dirl namel : list ascii) :
  namel ≠ [] → "/"%char ∉ namel →
  drop_while is_separator (rev (dirl ++ "/"%char :: namel))
  = rev namel ++ "/"%char :: rev dirl
  ∧ take_while (λ a, negb (is_separator a)) (rev namel ++ "/"%char :: rev dirl)
    = rev namel.
Proof.
  intros Hne Hfree.
  assert (Hrev : ∀ a, a ∈ rev namel → is_separator a = false).
  { intros a Ha. apply bool_decide_eq_false_2. intros ->.
    apply Hfree. apply list_elem_of_In, in_rev. by apply list_elem_of_In. }
  rewrite rev_app_distr. cbn [rev]. rewrite <- app_assoc. cbn [app].
  split.
  - destruct (rev namel) as [|x l] eqn:Hl.
    + exfalso. apply Hne. apply (f_equal (@length _)) in Hl.
      rewrite length_rev in Hl. by destruct namel.
    + cbn [app]. apply drop_while_head. apply Hrev. by left.
  - apply take_while_app; [|done]. intros a Ha. by rewrite Hrev.
Qed.

(** The base name of a file joined to a directory is the file's name. *)
Lemma filepath_Base_Join dir name :
  name ≠ "" →
  "/"%char ∉ String.list_ascii_of_string name →
  filepath_Base (filepath_Join dir name) = name.
Proof.
  intros Hne Hfree. unfold filepath_Base, filepath_Join.
  destruct (dir +:+ "/" +:+ name) as [|a0 rest] eqn:Hpath.
  { destruct dir; discriminate. }
  rewrite <- Hpath. clear Hpath a0 rest.
  rewrite !list_ascii_of_string_app. cbn [String.list_ascii_of_string app].
  assert (Hnel : String.list_ascii_of_string name ≠ []) by (by destruct name).
  destruct (base_of_joined (String.list_ascii_of_string dir)
              (String.list_ascii_of_string name) Hnel Hfree) as [-> ->].
  destruct (rev (String.list_ascii_of_string name)) as [|x l] eqn:Hl.
  { exfalso. apply Hnel. apply (f_equal (@length _)) in Hl.
    rewrite length_rev in Hl. by destruct (String.list_ascii_of_string name). }
  rewrite <- Hl, rev_involutive. apply String.string_of_list_ascii_of_string.
Qed.

Lemma finish_go env b passcode bp bfp keys fg zw s filePath g :
  Go filePath g ∈ log (snd (serve (finish env b passcode bp bfp keys fg zw) s)) →
  (∀ filePath' g', Go filePath' g' ∉ log s) →
  DbSave g true ∈ log (snd (serve (finish env b passcode bp bfp keys fg zw) s))
  ∧ filePath = FileGroup.FileKey g.
Proof.
  intros Hin Hnogo. unfold_tail.
  repeat (case_match; simplify_eq; simpl in *; try congruence).
  all: try solve [exfalso; inlog; by eapply Hnogo].
  all: match type of Hin with
       | _ ∈ ?l =>
           match l with
           | context [Go ?p ?G] =>
               assert (filePath = p ∧ g = G) as [-> ->]
                 by (inlog; try (exfalso; by eapply Hnogo); by simplify_eq)
           end
       end.
  all: split; [find_in|done].
Qed.

Lemma no_slash_zip id :
  "/"%char ∉ String.list_ascii_of_string id →
  id +:+ ".zip" ≠ "" ∧ "/"%char ∉ String.list_ascii_of_string (id +:+ ".zip").
Proof.
  intros Hfree. split; [by destruct id|].
  rewrite list_ascii_of_string_app. intros Hin.
  apply elem_of_app in Hin as [Hin|Hin]; [done|].
  simpl in Hin. inlog.
Qed.

(** Extra X17.  From the handler to the bucket, for a request without
    recipient ids whose group has members stored under distinct names, none
    at the path of the archive, whose archive file could be created and
    whose group id holds no [/].
    The goroutine is started with the path of the archive; run on what the
    handler leaves, with the file readable and [PutObject] accepting, it
    stores the archive under the key [<group id>.zip] with the expiry saved
    for the group, and the local archive is gone. *)
Theorem X17_archive_reaches_bucket env c w userId b passcode fg filePath g :
  middleware_GetUserId c = inl userId →
  ShouldBindJSON env c = Some b →
  bcrypt_GenerateFromPassword env (BundleFileGroupParam.Passcode b) = inl passcode →
  db_First_FileGroup (BundleFileGroupParam.FileGroupId b) userId w = Some fg →
  BundleFileGroupParam.UserIds b = [] →
  db_Find_FileItems (FileGroup.ID fg) w ≠ [] →
  os_Create_err env (bundle_path env fg) = None →
  NoDup (map (member_path (dirpaths_upload env)) (db_Find_FileItems (FileGroup.ID fg) w)) →
  bundle_path env fg
    ∉ map (member_path (dirpaths_upload env)) (db_Find_FileItems (FileGroup.ID fg) w) →
  "/"%char ∉ String.list_ascii_of_string (BundleFileGroupParam.FileGroupId b) →
  Go filePath g ∈ log (handle env c w).2 →
  os_Open_err env filePath = None →
  PutObject_err env (filepath_Base filePath) = None →
  filePath = bundle_path env fg
  ∧ filepath_Base filePath = BundleFileGroupParam.FileGroupId b +:+ ".zip"
  ∧ bucket (world (upload_goroutine env filePath g (handle env c w).2))
      !! (BundleFileGroupParam.FileGroupId b +:+ ".zip")
    = Some (mkS3Object
              (ZipArchive
                 (flat_map (archived env (dirpaths_upload env)
                              (BundleFileGroupParam.Passcode b) (disk w))
                    (db_Find_FileItems (FileGroup.ID fg) w)))
              (Some (match time_Parse env (BundleFileGroupParam.ExpiredAt b) with
                     | inl expDate => expDate
                     | inr _ => (time_Now env + 30 * 24 * 3600)%Z
                     end)))
  ∧ disk (world (upload_goroutine env filePath g (handle env c w).2)) !! filePath = None.
Proof.
  intros Hu Hb Hp Hfg Hnone Hitems Hc Hnd Hfresh Hslash Hgo Hopen Hput.
  destruct (BundleFileGroup_front_distinct env c w userId b passcode fg
              Hu Hb Hp Hfg Hitems Hc Hnd Hfresh)
    as (s1 & Heq & Hbfp & _ & removed & Hlog1).
  pose proof (db_First_FileGroup_ID _ _ _ _ Hfg) as (Hid & _ & _).
  assert (Hk : (resolve_recipients userId b fg w).1 = []).
  { rewrite resolve_recipients_keys. by rewrite Hnone. }
  revert Hgo Hopen Hput. rewrite Heq, Hk.
  set (archive := flat_map _ _).
  match goal with
  | |- context [serve (finish ?e ?b ?pc ?bp ?bfp [] ?fg ?zw) ?s] =>
      pose proof (finish_unwrapped e b pc bp bfp fg zw s)
        as [(new & Hlog & _ & _ & Hkey) Hdisk];
      pose proof (finish_go e b pc bp bfp [] fg zw s filePath g) as Hgo';
      pose proof (finish_saved_fields e b pc bp bfp [] fg zw s g true) as Hfields;
      pose proof (finish_tables e b pc bp bfp [] fg zw s) as (_ & _ & Hbucket & _);
      set (r := serve (finish e b pc bp bfp [] fg zw) s) in *
  end.
  simpl in Hdisk, Hlog, Hbucket.
  intros Hgo Hopen Hput.
  destruct (Hgo' Hgo) as [Hsave ->].
  { intros p g'. rewrite Hlog1. apply front_log_no_go. }
  destruct (Hfields Hsave) as (_ & _ & _ & _ & Hexp & _).
  { rewrite Hlog1. apply front_log_no_save. }
  assert (Hpath : FileGroup.FileKey g = bundle_path env fg).
  { apply (Hkey g true). rewrite Hlog in Hsave.
    apply elem_of_app in Hsave as [Hold|Hnew]; [|done].
    rewrite Hlog1 in Hold. by apply front_log_no_save in Hold. }
  rewrite Hpath in *.
  assert (Hbase : filepath_Base (bundle_path env fg)
                  = BundleFileGroupParam.FileGroupId b +:+ ".zip").
  { unfold bundle_path. rewrite Hid.
    destruct (no_slash_zip _ Hslash) as [Hne Hfree].
    by apply filepath_Base_Join. }
  split; [done|]. split; [done|].
  rewrite Hbase in *.
  unfold upload_goroutine, os_Open.
  rewrite Hdisk, lookup_alter_eq, Hbfp. simpl. rewrite Hopen, Hbase, Hput.
  unfold db_Save, os_Remove, effect, emit, on_world.
  destruct (save_failed _); simpl.
  - split; [by rewrite lookup_insert_eq, Hexp|apply lookup_delete_eq].
  - split; [by rewrite lookup_insert_eq, Hexp|apply lookup_delete_eq].
Qed.

(** ** The upload goroutine, and requests whose recipients have no key *)

Lemma upsert_other g rows r :
  r ∈ upsert g rows → FileGroup.ID r ≠ FileGroup.ID g → r ∈ rows.
Proof.
  unfold upsert. destruct (existsb _ rows).
  - intros Hin Hid. apply list_elem_of_fmap in Hin as (x & -> & Hx).
    destruct (bool_decide (FileGroup.ID x = FileGroup.ID g)); done.
  - intros Hin Hid. apply elem_of_app in Hin as [Hin|Hin]; [done|].
    apply list_elem_of_singleton in Hin. by subst.
Qed.

(** Extra X18.  What the upload goroutine leaves alone.  It never touches
    the tables of file items, user keys and short links; on disk it changes
    at most the file it was given, in the bucket at most the key that is the
    base name of that file, in the table of file groups at most the rows of
    its group.  When the file cannot be opened it does nothing at all, and
    when the store refuses its save the table of file groups stays as it
    was, although the local file has been removed. *)
Theorem X18_upload_goroutine_frame env filePath fileGroup s :
  let s' := upload_goroutine env filePath fileGroup s in
  file_items (world s') = file_items (world s)
  ∧ user_keys (world s') = user_keys (world s)
  ∧ short_links (world s') = short_links (world s)
  ∧ (∀ p, p ≠ filePath → disk (world s') !! p = disk (world s) !! p)
  ∧ (∀ k, k ≠ filepath_Base filePath → bucket (world s') !! k = bucket (world s) !! k)
  ∧ (∀ r, r ∈ file_groups (world s') → FileGroup.ID r ≠ FileGroup.ID fileGroup →
          r ∈ file_groups (world s))
  ∧ (∀ err, os_Open env filePath (world s) = inr err → s' = s)
  ∧ (∀ f, os_Open env filePath (world s) = inl f →
       PutObject_err env (filepath_Base filePath) = None →
       save_failed
         (db_Save_result env (FileGroup.set_FileKey (filepath_Base filePath) fileGroup))
       = true →
       file_groups (world s') = file_groups (world s)
       ∧ disk (world s') !! filePath = None
       ∧ bucket (world s') !! filepath_Base filePath
         = Some (mkS3Object f (FileGroup.ExpiredAt fileGroup))).
Proof.
  unfold upload_goroutine.
  destruct (os_Open env filePath (world s)) as [f|e] eqn:Hopen.
  2:{ simpl. repeat (split; [done|]). done. }
  destruct (PutObject_err env (filepath_Base filePath)) eqn:Hput.
  { simpl. repeat (split; [done|]). done. }
  unfold db_Save, os_Remove, effect, emit, on_world.
  destruct (save_failed _) eqn:Hsave; simpl.
  - repeat (split; [done|]).
    split; [intros p Hp; by apply lookup_delete_ne|].
    split; [intros k Hk; by apply lookup_insert_ne|].
    split; [done|]. split; [done|]. intros f' [= <-] _ _.
    split; [done|]. split; [apply lookup_delete_eq|apply lookup_insert_eq].
  - repeat (split; [done|]).
    split; [intros p Hp; by apply lookup_delete_ne|].
    split; [intros k Hk; by apply lookup_insert_ne|].
    split; [intros r Hr Hid; by apply upsert_other in Hr|].
    split; done.
Qed.

(** Extra X19.  Recipients without keys.  When recipient ids are given but
    neither they nor the requester have a registered key, the handler does
    not call [EncryptFile] at all: the request goes on with the passcode
    layer only, what it saves names the plain archive as locator and leaves
    the recipient list of the row as it was. *)
Theorem X19_no_registered_key_no_wrap env c w userId b fg :
  middleware_GetUserId c = inl userId →
  request_body c = Some b →
  db_First_FileGroup (BundleFileGroupParam.FileGroupId b) userId w = Some fg →
  (∀ key, key ∈ user_keys w →
          UserKey.UserId key ∉ BundleFileGroupParam.UserIds b ++ [userId]) →
  (∀ src dir keys out, EncryptFileCall src dir keys out ∉ log (handle env c w).2)
  ∧ (∀ g ok, DbSave g ok ∈ log (handle env c w).2 →
       FileGroup.FileKey g = bundle_path env fg
       ∧ FileGroup.SharedToUserIds g = FileGroup.SharedToUserIds fg).
Proof.
  intros Hu Hb Hfg Hnokey. unfold handle.
  destruct (BundleFileGroup_front env c (mkSt w []))
    as [(status & msg & Heq)|(u & b' & pc & fg' & zw & d' & removed &
                               Hu' & Hb' & Hpc & Hfg' & Hsub & Hd & Heq)];
    rewrite Heq.
  { split; [intros; by apply not_elem_of_nil|]. by intros g ok Hin%elem_of_nil. }
  apply ShouldBindJSON_body in Hb'.
  assert (u = userId) as -> by congruence.
  assert (b' = b) as -> by congruence.
  simpl in Hfg'. assert (fg' = fg) as -> by congruence.
  assert (Hfound : db_Find_UserKeys (BundleFileGroupParam.UserIds b ++ [userId]) w = []).
  { unfold db_Find_UserKeys. destruct (List.filter _ _) as [|k ks] eqn:Hf; [done|].
    assert (Hin : In k (List.filter
              (λ key, bool_decide (UserKey.UserId key
                                   ∈ BundleFileGroupParam.UserIds b ++ [userId]))
              (user_keys w))) by (rewrite Hf; by left).
    apply filter_In in Hin as [Hin Hk]. apply bool_decide_eq_true in Hk.
    by destruct (Hnokey k (proj2 (list_elem_of_In _ _) Hin)). }
  assert (Hr : resolve_recipients userId b fg w = ([], fg)).
  { unfold resolve_recipients. rewrite Hfound. by destruct (0 <? _)%nat. }
  simpl. rewrite Hr. simpl.
  match goal with
  | |- context [serve (finish ?e ?b ?pc ?bp ?bfp [] ?fg ?zw) ?s] =>
      pose proof (finish_unwrapped e b pc bp bfp fg zw s)
        as [(new & Hlog & _ & Hnowrap & Hkey) _];
      pose proof (finish_saved_fields e b pc bp bfp [] fg zw s) as Hfields;
      set (r := serve (finish e b pc bp bfp [] fg zw) s) in *
  end.
  simpl in Hlog. split.
  - intros src dir keys out Hin. rewrite Hlog in Hin.
    apply elem_of_cons in Hin as [|Hin]; [done|].
    apply elem_of_app in Hin as [Hin|Hin]; [|by apply Hnowrap in Hin].
    by apply list_elem_of_fmap in Hin as (? & ? & ?).
  - intros g ok Hin.
    destruct (Hfields g ok Hin) as (_ & _ & _ & _ & _ & Hshared);
      [apply front_log_no_save|].
    split; [|done]. apply (Hkey g ok). rewrite Hlog in Hin.
    apply elem_of_cons in Hin as [|Hin]; [done|].
    apply elem_of_app in Hin as [Hin|Hin]; [|done].
    by apply list_elem_of_fmap in Hin as (? & ? & ?).
Qed.

(** ** The handler next to its goroutine *)

(** [respond] is the end of [finish]. *)
Lemma finish_respond env b passcode bp bfp keys fg zw :
  finish env b passcode bp bfp keys fg zw
  = (run zip_Close bfp zw;
     do fileGroup <-
       wrap_for_recipients env bfp bp keys (FileGroup.set_FileKey bfp fg);
     let fileGroup :=
       FileGroup.set_bundled passcode (time_Now env) (parse_expiry env b).1 fileGroup in
     run persist env (parse_expiry env b).2 fileGroup;
     run effect (emit (Go (FileGroup.FileKey fileGroup) fileGroup));
     handoff.respond env b fileGroup).
Proof. unfold finish, handoff.respond. by destruct (parse_expiry env b). Qed.

Lemma upload_goroutine_short_links env filePath g s :
  short_links (world (upload_goroutine env filePath g s)) = short_links (world s).
Proof.
  unfold upload_goroutine. destruct (os_Open _ _ _); [|done].
  destruct (PutObject_err _ _); [done|].
  unfold db_Save, os_Remove, effect, emit, on_world.
  by destruct (save_failed _).
Qed.

Lemma respond_upload_commute env b fileGroup filePath g s :
  (serve (handoff.respond env b fileGroup) (upload_goroutine env filePath g s)).1
  = (serve (handoff.respond env b fileGroup) s).1
  ∧ world (serve (handoff.respond env b fileGroup) (upload_goroutine env filePath g s)).2
    = world (upload_goroutine env filePath g (serve (handoff.respond env b fileGroup) s).2).
Proof.
  unfold serve, handoff.respond, pin_code, MakeNewCode, bind, ret, abort.
  destruct (0 <? _)%nat.
  - destruct (bcrypt_GenerateFromPassword env _) as [pin|err]; [|done].
    rewrite upload_goroutine_short_links.
    destruct (shortlink_draw env _) as [code|err]; simpl.
    + split; [done|].
      unfold upload_goroutine, os_Open, db_Save, os_Remove, effect, emit, on_world. simpl.
      destruct (disk (world s) !! filePath); [|done].
      destruct (os_Open_err env filePath); [done|].
      destruct (PutObject_err env _); [done|].
      by destruct (save_failed _).
    + split; [done|].
      unfold upload_goroutine, os_Open, db_Save, os_Remove, effect, emit, on_world. simpl.
      destruct (disk (world s) !! filePath); [|done].
      destruct (os_Open_err env filePath); [done|].
      destruct (PutObject_err env _); [done|].
      by destruct (save_failed _).
  - rewrite upload_goroutine_short_links.
    destruct (shortlink_draw env _) as [code|err]; simpl.
    + split; [done|].
      unfold upload_goroutine, os_Open, db_Save, os_Remove, effect, emit, on_world. simpl.
      destruct (disk (world s) !! filePath); [|done].
      destruct (os_Open_err env filePath); [done|].
      destruct (PutObject_err env _); [done|].
      by destruct (save_failed _).
    + split; [done|].
      unfold upload_goroutine, os_Open, db_Save, os_Remove, effect, emit, on_world. simpl.
      destruct (disk (world s) !! filePath); [|done].
      destruct (os_Open_err env filePath); [done|].
      destruct (PutObject_err env _); [done|].
      by destruct (save_failed _).
Qed.

Lemma respond_log env b fileGroup s filePath g :
  Go filePath g ∈ log (serve (handoff.respond env b fileGroup) s).2 →
  Go filePath g ∈ log s.
Proof.
  unfold serve, handoff.respond, pin_code, MakeNewCode, bind, ret, abort, emit, on_world.
  repeat (case_match; simplify_eq; simpl in *; try congruence).
  all: intros Hin; inlog.
Qed.

Lemma finish_at_go env b passcode bp bfp keys fg zw s filePath g :
  Go filePath g ∈ log (serve (finish env b passcode bp bfp keys fg zw) s).2 →
  (∀ filePath' g', Go filePath' g' ∉ log s) →
  ∃ s_go l,
    log s_go = l ++ [Go filePath g]
    ∧ serve (finish env b passcode bp bfp keys fg zw) s
      = serve (handoff.respond env b g) s_go.
Proof.
  intros Hin Hnogo. rewrite finish_respond in *.
  do 4 (unfold serve, bind, zip_Close, wrap_for_recipients, persist, EncryptFile, db_Save,
          os_Remove, effect, emit, on_world, abort, ret, panic in * ).
  repeat (case_match; simplify_eq; simpl in *; try congruence).
  all: try solve [exfalso; inlog; by eapply Hnogo].
  all: match goal with
       | H : handoff.respond ?e ?b ?G ?S = _ |- _ =>
           let Hgo := fresh "Hgo" in
           assert (Hgo : Go filePath g ∈ log S)
             by (apply (respond_log e b G S filePath g); unfold serve; by rewrite H);
           simpl in Hgo;
           assert (filePath = FileGroup.FileKey G ∧ g = G) as [-> ->]
             by (inlog; try (exfalso; by eapply Hnogo); by simplify_eq);
           eexists S, _; split; [reflexivity|]; by rewrite H
       end.
Qed.

(** Extra X20.  The answer does not wait for the upload.  When a request
    started the goroutine, the rest of the handler (hashing the download
    password, creating the short link, answering) and the goroutine do not
    see each other: whether the goroutine runs at once in the state in which
    it was started, or only after the handler has answered, the answer is
    the same and so is the world both leave. *)
Theorem X20_answer_independent_of_upload env c w filePath g :
  Go filePath g ∈ log (handle env c w).2 →
  ∃ b s_go l,
    request_body c = Some b
    ∧ log s_go = l ++ [Go filePath g]
    ∧ handle env c w = serve (handoff.respond env b g) s_go
    ∧ (serve (handoff.respond env b g) (upload_goroutine env filePath g s_go)).1
      = (handle env c w).1
    ∧ world (serve (handoff.respond env b g) (upload_goroutine env filePath g s_go)).2
      = world (upload_goroutine env filePath g (handle env c w).2).
Proof.
  unfold handle.
  destruct (BundleFileGroup_front env c (mkSt w []))
    as [(status & msg & Heq)|(u & b & pc & fg & zw & d' & removed &
                               Hu & Hb & Hpc & Hfg & Hsub & Hd & Heq)];
    rewrite Heq; [by intros Hin%elem_of_nil|].
  intros Hin. apply ShouldBindJSON_body in Hb.
  apply finish_at_go in Hin as (s_go & l & Hlog & Hgo);
    [|intros; apply front_log_no_go].
  exists b, s_go, l. rewrite Hgo.
  destruct (respond_upload_commute env b g filePath g s_go) as [Hanswer Hworld].
  done.
Qed.

(** ** Instances on the example deployment *)

Lemma X8_rejected_before_fetch_witness :
  handle Example.env (mkContext (inr (errorString "no session"))
                        (Some (Example.params "" []))) Example.w0
  = (AbortWithStatusJSON 403 "Unauthorized request", mkSt Example.w0 [])
  ∧ handle Example.env
      (mkContext (inl "owner")
         (Some (BundleFileGroupParam.mk "g1" "2025-01-01T00:00:00Z" "secret1" "12345" [])))
      Example.w0
    = (AbortWithStatusJSON 400 "Invalid body request", mkSt Example.w0 []).
Proof.
  split.
  - destruct (X8_rejected_before_fetch Example.env
                (mkContext (inr (errorString "no session")) (Some (Example.params "" [])))
                Example.w0) as [Hforbidden _].
    apply (Hforbidden (errorString "no session")). reflexivity.
  - destruct (X8_rejected_before_fetch Example.env
                (mkContext (inl "owner")
                   (Some (BundleFileGroupParam.mk "g1" "2025-01-01T00:00:00Z" "secret1"
                            "12345" [])))
                Example.w0) as [_ Hbad].
    apply (Hbad "owner"); [reflexivity|]. right. simpl. lia.
Defined.

Lemma X9_invalid_group_iff_witness :
  (handle Example.env (mkContext (inl "intruder") (Some (Example.params "" [])))
     Example.w0).1
  = AbortWithStatusJSON 500 "Invalid file group".
Proof.
  destruct (X9_invalid_group_iff Example.env
              (mkContext (inl "intruder") (Some (Example.params "" []))) Example.w0
              "intruder" (Example.params "" []) "$2a$10$secret1"
              eq_refl eq_refl eq_refl) as [Hiff _].
  apply Hiff. intros g Hin _.
  apply list_elem_of_singleton in Hin. subst g. left. discriminate.
Defined.

Lemma X10_empty_group_iff_witness :
  (handle Example.env (Example.request "" []) Scenarios.w_empty_group).1
  = AbortWithStatusJSON 500 "Empty file group".
Proof.
  destruct (X10_empty_group_iff Example.env (Example.request "" [])
              Scenarios.w_empty_group "owner" (Example.params "" []) "$2a$10$secret1"
              Example.G eq_refl eq_refl eq_refl ltac:(vm_compute; reflexivity))
    as [Hiff _].
  apply Hiff. intros item Hin. by apply elem_of_nil in Hin.
Defined.

Lemma X11_saved_group_witness :
  FileGroup.ID Example.G_bundled = "g1"
  ∧ FileGroup.UserId Example.G_bundled = "owner"
  ∧ FileGroup.BundledAt Example.G_bundled = Some (time_Now Example.env)
  ∧ FileGroup.ArchivePasscode Example.G_bundled = "$2a$10$secret1"
  ∧ FileGroup.ExpiredAt Example.G_bundled = Some 1735689600%Z.
Proof.
  destruct (X11_saved_group Example.env (Example.request "" []) Example.w0 "owner"
              (Example.params "" []) "$2a$10$secret1" eq_refl eq_refl eq_refl)
    as [Hsaved _].
  apply (Hsaved Example.G_bundled true). in_journal.
Defined.

Lemma X12_saved_recipient_list_witness :
  FileGroup.SharedToUserIds Scenarios.G_shared = ["owner"; "u1"].
Proof.
  apply (X12_saved_recipient_list Example.env (Example.request "" ["u1"; "ghost"])
           Example.w0 "owner" (Example.params "" ["u1"; "ghost"]) Example.G
           Scenarios.G_shared true eq_refl eq_refl ltac:(vm_compute; reflexivity)).
  in_journal.
Defined.

Lemma X13_tables_frame_witness :
  file_groups (world (handle Example.env (Example.request "" []) Scenarios.w_neighbour).2)
    !! 1%nat
  = Some (FileGroup.mk "g2" "other" None None "" "" []).
Proof.
  destruct (X13_tables_frame Example.env (Example.request "" []) Scenarios.w_neighbour)
    as (_ & _ & _ & _ & Hrows & _).
  apply Hrows; [reflexivity|]. intros b [= <-]. discriminate.
Defined.

Lemma X14_disk_frame_witness :
  disk (world (handle Example.env (Example.request "" ["u1"]) Scenarios.w_neighbour).2)
    !! "upload/f-0777"
  = Some (Plain Example.bytes_b).
Proof.
  rewrite (X14_disk_frame Example.env (Example.request "" ["u1"]) Scenarios.w_neighbour
             (Example.params "" ["u1"]) "upload/f-0777" eq_refl).
  - vm_compute. reflexivity.
  - vm_compute. discriminate.
  - intros Hin. set (l := map _ _) in Hin. vm_compute in l. subst l. inlog.
  - intros src dir keys out Hin. set (l := log _) in Hin. vm_compute in l. subst l.
    inlog; simplify_eq; discriminate.
Defined.

Lemma X15_applied_save_is_final_witness :
  (handle Scenarios.env_mint_fails (Example.request "" []) Example.w0).1
  = AbortWithStatusJSON 500 "Unable to create download link:duplicate key value"
  ∧ serve (BundleFileGroup Scenarios.env_mint_fails (Example.request "" []))
      (handle Scenarios.env_mint_fails (Example.request "" []) Example.w0).2
    = (AbortWithStatusJSON 500 "Invalid file group",
       (handle Scenarios.env_mint_fails (Example.request "" []) Example.w0).2).
Proof.
  split; [vm_compute; reflexivity|].
  apply (X15_applied_save_is_final Scenarios.env_mint_fails (Example.request "" [])
           Example.w0 Example.G_bundled).
  in_journal.
Defined.

Lemma X16_archive_on_disk_witness :
  disk (world (handle Example.env (Example.request "" []) Example.w0).2)
    !! "bundle/g1.zip"
  = Some (ZipArchive [mkZipEntry "a.txt" "secret1" Example.bytes_a;
                      mkZipEntry "b.txt" "secret1" Example.bytes_b]).
Proof.
  destruct (X16_archive_on_disk Example.env (Example.request "" []) Example.w0 "owner"
              (Example.params "" []) "$2a$10$secret1" Example.G
              eq_refl eq_refl eq_refl ltac:(vm_compute; reflexivity) eq_refl
              ltac:(vm_compute; discriminate) eq_refl
              Example_members_distinct Example_archive_path_fresh)
    as [Harchive _].
  exact Harchive.
Defined.

Lemma X17_archive_reaches_bucket_witness :
  bucket (world (upload_goroutine Example.env "bundle/g1.zip" Example.G_bundled
                   (handle Example.env (Example.request "" []) Example.w0).2))
    !! "g1.zip"
  = Some (mkS3Object
            (ZipArchive [mkZipEntry "a.txt" "secret1" Example.bytes_a;
                         mkZipEntry "b.txt" "secret1" Example.bytes_b])
            (Some 1735689600%Z)).
Proof.
  destruct (X17_archive_reaches_bucket Example.env (Example.request "" []) Example.w0
              "owner" (Example.params "" []) "$2a$10$secret1" Example.G
              "bundle/g1.zip" Example.G_bundled
              eq_refl eq_refl eq_refl ltac:(vm_compute; reflexivity) eq_refl
              ltac:(vm_compute; discriminate) eq_refl
              Example_members_distinct Example_archive_path_fresh)
    as (_ & _ & Hbucket & _).
  - intros Hin. set (l := String.list_ascii_of_string _) in Hin.
    vm_compute in l. subst l. inlog.
  - in_journal.
  - reflexivity.
  - reflexivity.
  - exact Hbucket.
Defined.

Lemma X18_upload_goroutine_frame_witness :
  file_groups (world (upload_goroutine Example.env_save_fails "bundle/g1.zip"
                        (FileGroup.set_FileKey "bundle/g1.zip" Example.G)
                        (mkSt Example.w1 [])))
  = file_groups Example.w1
  ∧ disk (world (upload_goroutine Example.env_save_fails "bundle/g1.zip"
                   (FileGroup.set_FileKey "bundle/g1.zip" Example.G)
                   (mkSt Example.w1 []))) !! "bundle/g1.zip" = None.
Proof.
  destruct (X18_upload_goroutine_frame Example.env_save_fails "bundle/g1.zip"
              (FileGroup.set_FileKey "bundle/g1.zip" Example.G) (mkSt Example.w1 []))
    as (_ & _ & _ & _ & _ & _ & _ & Hrefused).
  destruct (Hrefused (ZipArchive [mkZipEntry "a.txt" "secret1" Example.bytes_a;
                                  mkZipEntry "b.txt" "secret1" Example.bytes_b]))
    as (Hrows & Hdisk & _); [vm_compute; reflexivity|reflexivity|reflexivity|].
  split; [exact Hrows|exact Hdisk].
Defined.

Lemma X19_no_registered_key_no_wrap_witness :
  FileGroup.FileKey Example.G_bundled = bundle_path Example.env Example.G
  ∧ FileGroup.SharedToUserIds Example.G_bundled = FileGroup.SharedToUserIds Example.G.
Proof.
  destruct (X19_no_registered_key_no_wrap Example.env (Example.request "" ["u1"])
              Scenarios.w_no_keys "owner" (Example.params "" ["u1"]) Example.G
              eq_refl eq_refl ltac:(vm_compute; reflexivity))
    as [_ Hsaved].
  - intros key Hin. by apply elem_of_nil in Hin.
  - apply (Hsaved Example.G_bundled true). in_journal.
Defined.

Lemma X20_answer_independent_of_upload_witness :
  ∃ b s_go l,
    request_body (Example.request "pin-1234" []) = Some b
    ∧ log s_go = l ++ [Go "bundle/g1.zip" Example.G_bundled]
    ∧ handle Example.env (Example.request "pin-1234" []) Example.w0
      = serve (handoff.respond Example.env b Example.G_bundled) s_go
    ∧ (serve (handoff.respond Example.env b Example.G_bundled)
         (upload_goroutine Example.env "bundle/g1.zip" Example.G_bundled s_go)).1
      = (handle Example.env (Example.request "pin-1234" []) Example.w0).1
    ∧ world (serve (handoff.respond Example.env b Example.G_bundled)
               (upload_goroutine Example.env "bundle/g1.zip" Example.G_bundled s_go)).2
      = world (upload_goroutine Example.env "bundle/g1.zip" Example.G_bundled
                 (handle Example.env (Example.request "pin-1234" []) Example.w0).2).
Proof.
  apply (X20_answer_independent_of_upload Example.env (Example.request "pin-1234" [])
           Example.w0 "bundle/g1.zip" Example.G_bundled).
  in_journal.
Defined.
